(** * LingoFlash: spaced-repetition scheduler, card store, quiz and study session

    A shallow embedding of the scheduling core of the application:
    - [src/types.ts]                      the card data model;
    - [src/App.tsx]                       [SRS_INTERVALS], [addToFlashcards],
                                          [removeCard], [isWordSaved],
                                          [getDueCards], [handleSRSRating],
                                          [startReviewSession],
                                          [startRandomStudy], the loader of
                                          the store and the card built by
                                          [handleSearch];
    - [src/unnamed/part_000]              [calculateSimilarity], the text
                                          compared by
                                          [handlePronunciationCheck],
                                          [getScoreMessage];
    - [src/unnamed/part_001]              [generateQuiz], [submitQuizAnswer],
                                          [handleNext], [handlePrev],
                                          [handleRating], [handleKeyDown] and
                                          the two effects of the component;
    - [src/components/FlashcardStudy.tsx] the same component without the
                                          quiz;
    - [src/components/ClickableText.tsx]  the splitting of a text into
                                          words that can be clicked.

    Conventions.  JavaScript numbers that the code only uses as integers
    (levels, epoch milliseconds, indices, lengths) are [Z].  An optional field
    ([srsLevel?: number]) is an [option]; [undefined] is [None].  Strings are
    [string], read as sequences of code units below 128; [toLowerCase],
    [trim] and the regular-expression classes are the ASCII ones (the
    clickable text alone also names the code units 192 to 255, the range
    [À-ÿ] of its class).
    [Date.now()] is passed in as the argument [now]; React state is passed
    explicitly and a state setter returns the new state. *)

From Stdlib Require Import ZArith QArith Qround List String Ascii Bool Lia Permutation.
Import ListNotations.
Open Scope Z_scope.

(* ================================================================= *)
(** ** JavaScript primitives used by the code *)

Module JS.

(** [v || d] on an optional number: [undefined] and [0] are falsy. *)
Definition or_num (v : option Z) (d : Z) : Z :=
  match v with
  | Some x => if x =? 0 then d else x
  | None => d
  end.

(** [!v] on an optional number. *)
Definition not_num (v : option Z) : bool :=
  match v with
  | Some x => x =? 0
  | None => true
  end.

(** [v <= n] where [v] may be [undefined] ([undefined] converts to NaN and
    every comparison with NaN is false). *)
Definition le_num (v : option Z) (n : Z) : bool :=
  match v with
  | Some x => x <=? n
  | None => false
  end.

(** [a[i]]: [undefined] outside [0 .. a.length - 1]. *)
Definition get {A : Type} (a : list A) (i : Z) : option A :=
  if i <? 0 then None else nth_error a (Z.to_nat i).

(** [a.length]. *)
Definition len {A : Type} (a : list A) : Z := Z.of_nat (List.length a).

(** [a[i] = v] for [0 <= i <= a.length]: an in-range write replaces, a
    write at [a.length] extends the array by one element. *)
Fixpoint set_nat {A : Type} (a : list A) (i : nat) (v : A) : list A :=
  match a, i with
  | [], _ => [v]
  | _ :: t, O => v :: t
  | h :: t, S k => h :: set_nat t k v
  end.

Definition set {A : Type} (a : list A) (i : Z) (v : A) : list A :=
  set_nat a (Z.to_nat i) v.

(** Code units and strings. *)
Definition code (c : ascii) : N := N_of_ascii c.

Definition in_range (lo hi : N) (c : ascii) : bool :=
  (N.leb lo (code c) && N.leb (code c) hi)%bool.

Definition isUpper (c : ascii) : bool := in_range 65 90 c.
Definition isLower (c : ascii) : bool := in_range 97 122 c.
Definition isDigit (c : ascii) : bool := in_range 48 57 c.

Definition lowerChar (c : ascii) : ascii :=
  if isUpper c then ascii_of_N (code c + 32) else c.

Definition upperChar (c : ascii) : ascii :=
  if isLower c then ascii_of_N (code c - 32) else c.

(** [s.toLowerCase()]. *)
Fixpoint toLowerCase (s : string) : string :=
  match s with
  | EmptyString => EmptyString
  | String c t => String (lowerChar c) (toLowerCase t)
  end.

(** White space and line terminators removed by [trim]: TAB, LF, VT, FF,
    CR and SPACE. *)
Definition isSpace (c : ascii) : bool :=
  (in_range 9 13 c || N.eqb (code c) 32)%bool.

Fixpoint trimStart (s : string) : string :=
  match s with
  | EmptyString => EmptyString
  | String c t => if isSpace c then trimStart t else s
  end.

Fixpoint trimEnd (s : string) : string :=
  match s with
  | EmptyString => EmptyString
  | String c t =>
      match trimEnd t with
      | EmptyString => if isSpace c then EmptyString else String c EmptyString
      | t' => String c t'
      end
  end.

(** [s.trim()]. *)
Definition trim (s : string) : string := trimEnd (trimStart s).

(** [s.length]. *)
Definition strlen (s : string) : Z := Z.of_nat (String.length s).

End JS.

(* ================================================================= *)
(** ** Data model ([src/types.ts]) *)

Record Meaning : Type := mkMeaning {
  partOfSpeech : string;
  vietnamese : string;
  definition : string
}.

Record Example : Type := mkExample {
  sentence : string;
  translation : string
}.

Record WordData : Type := mkWordData {
  id : string;
  word : string;
  phonetic : string;
  mnemonic : option string;
  meanings : list Meaning;
  examples : list Example;
  synonyms : option (list string);
  antonyms : option (list string);
  createdAt : Z;
  srsLevel : option Z;
  nextReview : option Z
}.

(** [{ ...c, srsLevel: l, nextReview: t }] *)
Definition with_srs (c : WordData) (l t : Z) : WordData :=
  {| id := id c; word := word c; phonetic := phonetic c;
     mnemonic := mnemonic c; meanings := meanings c; examples := examples c;
     synonyms := synonyms c; antonyms := antonyms c; createdAt := createdAt c;
     srsLevel := Some l; nextReview := Some t |}.

(* ================================================================= *)
(** ** Card store and scheduler ([src/App.tsx]) *)

Module App.

(** [const SRS_INTERVALS = [1, 3, 7, 14, 30];] *)
Definition SRS_INTERVALS : list Z := [1; 3; 7; 14; 30].

(** [addToFlashcards]: the store is [savedCards]; the result is the store
    after the call. *)
Definition addToFlashcards (w : WordData) (savedCards : list WordData)
  : list WordData :=
  if negb (existsb (fun c => String.eqb (JS.toLowerCase (word c))
                                         (JS.toLowerCase (word w)))
                   savedCards)
  then w :: savedCards
  else savedCards.

(** [removeCard]. *)
Definition removeCard (i : string) (savedCards : list WordData)
  : list WordData :=
  filter (fun c => negb (String.eqb (id c) i)) savedCards.

(** The predicate of the filter in [getDueCards]:
    [!card.nextReview || card.nextReview <= now]. *)
Definition isDue (now : Z) (card : WordData) : bool :=
  (JS.not_num (nextReview card) || JS.le_num (nextReview card) now)%bool.

(** [getDueCards]. *)
Definition getDueCards (now : Z) (savedCards : list WordData)
  : list WordData :=
  filter (isDue now) savedCards.

(** [const currentLevel = card.srsLevel || 0;] *)
Definition currentLevel (card : WordData) : Z := JS.or_num (srsLevel card) 0.

(** The first half of [handleSRSRating]: the pair
    [(newLevel, nextReviewDate)] computed before the store is touched. *)
Definition srsOutcome (card : WordData) (success : bool) (now : Z) : Z * Z :=
  let currentLevel := currentLevel card in
  if success then
    let newLevel := Z.min (currentLevel + 1) (JS.len SRS_INTERVALS) in
    let daysToAdd := JS.or_num (JS.get SRS_INTERVALS (newLevel - 1)) 1 in
    (newLevel, now + daysToAdd * 24 * 60 * 60 * 1000)
  else
    (1, now + 1 * 24 * 60 * 60 * 1000).

(** [handleSRSRating]: the store after the rating. *)
Definition handleSRSRating (card : WordData) (success : bool) (now : Z)
    (savedCards : list WordData) : list WordData :=
  let '(newLevel, nextReviewDate) := srsOutcome card success now in
  map (fun c => if String.eqb (id c) (id card)
                then with_srs c newLevel nextReviewDate
                else c)
      savedCards.

(** [isWordSaved]. *)
Definition isWordSaved (w : string) (savedCards : list WordData) : bool :=
  existsb (fun c => String.eqb (JS.toLowerCase (word c)) (JS.toLowerCase w))
          savedCards.

(** The card that [handleSearch] builds from a lookup result (and
    [executeSearch] of the quick lookup in the same way):
    [{ ...result, id: crypto.randomUUID(), createdAt: Date.now(),
       srsLevel: 0, nextReview: Date.now() }].
    The fresh identifier and the two readings of the clock are arguments. *)
Definition newCard (result : WordData) (uuid : string) (created now : Z)
    : WordData :=
  {| id := uuid; word := word result; phonetic := phonetic result;
     mnemonic := mnemonic result; meanings := meanings result;
     examples := examples result; synonyms := synonyms result;
     antonyms := antonyms result; createdAt := created;
     srsLevel := Some 0; nextReview := Some now |}.

(** A stored example as the loader may find it: a plain string in stores
    written by an old version, an object otherwise. *)
Inductive StoredExample : Type :=
| LegacyExample (s : string)
| FullExample (e : Example).

(** A stored card, as [JSON.parse] gives it back. *)
Record StoredCard : Type := mkStoredCard {
  stored_id : string;
  stored_word : string;
  stored_phonetic : string;
  stored_mnemonic : option string;
  stored_meanings : list Meaning;
  stored_examples : list StoredExample;
  stored_synonyms : option (list string);
  stored_antonyms : option (list string);
  stored_createdAt : Z;
  stored_srsLevel : option Z;
  stored_nextReview : option Z
}.

(** [typeof ex === 'string' ? { sentence: ex, translation: '' } : ex] *)
Definition migrateExample (ex : StoredExample) : Example :=
  match ex with
  | LegacyExample s => {| sentence := s; translation := "" |}
  | FullExample e => e
  end.

(** The function mapped over the parsed store by the loader:
    the examples are converted, [srsLevel] defaults to [0] and
    [nextReview] to [now] when they are [undefined]. *)
Definition migrateCard (now : Z) (card : StoredCard) : WordData :=
  {| id := stored_id card; word := stored_word card;
     phonetic := stored_phonetic card; mnemonic := stored_mnemonic card;
     meanings := stored_meanings card;
     examples := map migrateExample (stored_examples card);
     synonyms := stored_synonyms card; antonyms := stored_antonyms card;
     createdAt := stored_createdAt card;
     srsLevel := match stored_srsLevel card with
                 | Some l => Some l
                 | None => Some 0
                 end;
     nextReview := match stored_nextReview card with
                   | Some t => Some t
                   | None => Some now
                   end |}.

(** The loader: [parsedData.map(card => ...)], handed to [setSavedCards]. *)
Definition migrate (now : Z) (parsedData : list StoredCard) : list WordData :=
  map (migrateCard now) parsedData.

(** What the saving effect writes for a card and the loader reads back:
    [JSON.stringify] leaves out the fields that are [undefined] and keeps
    the others. *)
Definition stored (c : WordData) : StoredCard :=
  {| stored_id := id c; stored_word := word c;
     stored_phonetic := phonetic c; stored_mnemonic := mnemonic c;
     stored_meanings := meanings c;
     stored_examples := map FullExample (examples c);
     stored_synonyms := synonyms c; stored_antonyms := antonyms c;
     stored_createdAt := createdAt c;
     stored_srsLevel := srsLevel c; stored_nextReview := nextReview c |}.

(** [enum AppMode] ([src/types.ts]). *)
Inductive AppMode : Type :=
| SEARCH
| FLASHCARDS
| STUDY.

(** The part of the state of [App] that the study buttons read and write. *)
Record View : Type := mkView {
  mode : AppMode;
  savedCards : list WordData;
  studySessionCards : list WordData;
  isReviewSession : bool
}.

(** [startReviewSession]. *)
Definition startReviewSession (now : Z) (v : View) : View :=
  let due := getDueCards now (savedCards v) in
  if JS.len due =? 0 then v
  else {| mode := STUDY; savedCards := savedCards v;
          studySessionCards := due; isReviewSession := true |}.

(** [startRandomStudy]. *)
Definition startRandomStudy (v : View) : View :=
  {| mode := STUDY; savedCards := savedCards v;
     studySessionCards := savedCards v; isReviewSession := false |}.

(** [const dueCount = getDueCards().length;] *)
Definition dueCount (now : Z) (cards : list WordData) : Z :=
  JS.len (getDueCards now cards).

End App.

(* ================================================================= *)
(** ** Similarity scorer ([calculateSimilarity], [src/unnamed/part_000]) *)

Module Similarity.

(** A JavaScript number that is an integer or NaN; [None] is NaN (what
    arithmetic on an absent array element gives). *)
Definition number : Type := option Z.

(** [s.charAt(i)]: the empty string outside the string, here [None]. *)
Definition charAt (s : string) (i : Z) : option ascii :=
  if i <? 0 then None else String.get (Z.to_nat i) s.

Definition same_char (a b : option ascii) : bool :=
  match a, b with
  | Some x, Some y => Ascii.eqb x y
  | None, None => true
  | _, _ => false
  end.

(** [0, 1, ..., n]: the values a loop [for (k = 0; k <= n; k++)] goes through. *)
Definition upto (n : Z) : list Z := map Z.of_nat (seq 0 (S (Z.to_nat n))).

(** Body of the inner loop of [editDistance] at row [i], column [j], on the
    loop state [(costs, lastValue)]. *)
Definition inner_step (s1 s2 : string) (i : Z)
    (st : option (list Z * Z)) (j : Z) : option (list Z * Z) :=
  match st with
  | None => None
  | Some (costs, lastValue) =>
      if i =? 0 then Some (JS.set costs j j, lastValue)
      else if 0 <? j then
        match JS.get costs (j - 1) with
        | None => None
        | Some newValue =>
            let updated :=
              if negb (same_char (charAt s1 (i - 1)) (charAt s2 (j - 1)))
              then match JS.get costs j with
                   | None => None
                   | Some cj => Some (Z.min (Z.min newValue lastValue) cj + 1)
                   end
              else Some newValue in
            match updated with
            | None => None
            | Some newValue' => Some (JS.set costs (j - 1) lastValue, newValue')
            end
        end
      else Some (costs, lastValue)
  end.

(** Body of the outer loop: one row. *)
Definition outer_step (s1 s2 : string) (st : option (list Z)) (i : Z)
    : option (list Z) :=
  match st with
  | None => None
  | Some costs =>
      match fold_left (inner_step s1 s2 i) (upto (JS.strlen s2))
                      (Some (costs, i)) with
      | None => None
      | Some (costs', lastValue) =>
          if 0 <? i then Some (JS.set costs' (JS.strlen s2) lastValue)
          else Some costs'
      end
  end.

(** The local function [editDistance]. *)
Definition editDistance (s1 s2 : string) : number :=
  let s1 := JS.toLowerCase s1 in
  let s2 := JS.toLowerCase s2 in
  match fold_left (outer_step s1 s2) (upto (JS.strlen s1)) (Some []) with
  | None => None
  | Some costs => JS.get costs (JS.strlen s2)
  end.

(** [Math.round((num / den) * 100)] for [0 <= num] and [0 < den], computed
    on exact rationals: the nearest integer, halves rounded up. *)
Definition round_percent (num den : Z) : Z := (200 * num + den) / (2 * den).

(** [calculateSimilarity]. *)
Definition calculateSimilarity (s1 s2 : string) : number :=
  let longer := if JS.strlen s2 <? JS.strlen s1 then s1 else s2 in
  let shorter := if JS.strlen s2 <? JS.strlen s1 then s2 else s1 in
  let longerLength := JS.strlen longer in
  if longerLength =? 0 then Some 1
  else
    match editDistance longer shorter with
    | None => None
    | Some d => Some (round_percent (longerLength - d) longerLength)
    end.

(** The characters removed from what was heard and from the word before
    they are compared: the class
    [[.,\/#!$%\^&\*;:{}=\-_`~()]] of [handlePronunciationCheck]. *)
Definition isPunctuation (c : ascii) : bool :=
  existsb (Ascii.eqb c) (list_ascii_of_string ".,/#!$%^&*;:{}=-_`~()").

Fixpoint removePunctuation (s : string) : string :=
  match s with
  | EmptyString => EmptyString
  | String c t =>
      if isPunctuation c then removePunctuation t
      else String c (removePunctuation t)
  end.

(** [s.trim().toLowerCase().replace(/[...]/g, "")] *)
Definition normalize (s : string) : string :=
  removePunctuation (JS.toLowerCase (JS.trim s)).

(** The score set by [recognition.onresult] for a transcript and the word
    of the card. *)
Definition pronunciationScore (transcript word : string) : number :=
  calculateSimilarity (normalize transcript) (normalize word).

(** The four messages of [getScoreMessage]. *)
Inductive ScoreMessage : Type :=
| Excellent
| GreatJob
| GoodEffort
| TryAgain.

(** [getScoreMessage]. *)
Definition getScoreMessage (s : Z) : ScoreMessage :=
  if s =? 100 then Excellent
  else if 80 <=? s then GreatJob
  else if 50 <=? s then GoodEffort
  else TryAgain.

End Similarity.

(* ================================================================= *)
(** ** The regular expression of the fill-in-the-blank question

    [new RegExp(`\\b${card.word}\\b`, 'gi')] and
    [sentence.replace(regex, '_______')].  The word is pasted into the
    pattern as it is, so its characters are read as pattern syntax.  The
    fragment modelled here covers the words made of ordinary characters
    and of the wildcard [.]; a word that holds any other syntax character
    ([^ $ \ * + ? ( ) [ ] { } |]) is outside it. *)

Module RegExp.

Inductive Atom : Type :=
| Lit (c : ascii)     (* an ordinary character, matched ignoring case *)
| AnyChar.            (* [.]: any character but a line terminator *)

Definition isSyntaxChar (c : ascii) : bool :=
  existsb (Ascii.eqb c)
          (list_ascii_of_string "^$\.*+?()[]{}|").

Definition dot : ascii := "."%char.

(** The atoms of the word between the two [\b]; [None] outside the fragment. *)
Fixpoint parseWord (w : list ascii) : option (list Atom) :=
  match w with
  | [] => Some []
  | c :: t =>
      match parseWord t with
      | None => None
      | Some atoms =>
          if Ascii.eqb c dot then Some (AnyChar :: atoms)
          else if isSyntaxChar c then None
          else Some (Lit c :: atoms)
      end
  end.

(** Word characters of [\b]: letters, digits and the underscore. *)
Definition isWordChar (c : ascii) : bool :=
  (JS.isUpper c || JS.isLower c || JS.isDigit c || N.eqb (JS.code c) 95)%bool.

Definition isWordCharAt (c : option ascii) : bool :=
  match c with
  | Some x => isWordChar x
  | None => false
  end.

(** The assertion [\b] between the character before and the character at
    the current position (either may be missing at the ends). *)
Definition wordBoundary (before here : option ascii) : bool :=
  xorb (isWordCharAt before) (isWordCharAt here).

Definition isLineTerminator (c : ascii) : bool :=
  (N.eqb (JS.code c) 10 || N.eqb (JS.code c) 13)%bool.

(** One atom against one character, under the flag [i]. *)
Definition matchAtom (a : Atom) (c : ascii) : bool :=
  match a with
  | Lit x => Ascii.eqb (JS.upperChar x) (JS.upperChar c)
  | AnyChar => negb (isLineTerminator c)
  end.

(** The atoms against a prefix of the input: the last character consumed
    (or [before] when there is no atom) and the input left. *)
Fixpoint matchAtoms (atoms : list Atom) (before : option ascii)
    (input : list ascii) : option (option ascii * list ascii) :=
  match atoms with
  | [] => Some (before, input)
  | a :: atoms' =>
      match input with
      | [] => None
      | c :: input' =>
          if matchAtom a c then matchAtoms atoms' (Some c) input' else None
      end
  end.

(** Does [\b atoms \b] match at the current position? *)
Definition matchHere (atoms : list Atom) (before : option ascii)
    (input : list ascii) : bool :=
  (wordBoundary before (hd_error input) &&
   match matchAtoms atoms before input with
   | Some (last, rest) => wordBoundary last (hd_error rest)
   | None => false
   end)%bool.

Definition BLANK : list ascii := list_ascii_of_string "_______".

(** [replace] with a global pattern: scan from the left; at a match write
    the replacement and resume after the match ([skip] counts the matched
    characters still to pass over); after an empty match move on by one
    character.  The position after the last character is tried too. *)
Fixpoint replaceFrom (atoms : list Atom) (before : option ascii) (skip : nat)
    (input : list ascii) : list ascii :=
  match input with
  | [] =>
      match skip with
      | O => if matchHere atoms before [] then BLANK else []
      | S _ => []
      end
  | c :: input' =>
      match skip with
      | S k => replaceFrom atoms (Some c) k input'
      | O =>
          if matchHere atoms before input then
            match List.length atoms with
            | O => BLANK ++ c :: replaceFrom atoms (Some c) O input'
            | S k => BLANK ++ replaceFrom atoms (Some c) k input'
            end
          else c :: replaceFrom atoms (Some c) O input'
      end
  end.

(** [sentence.replace(new RegExp(`\\b${word}\\b`, 'gi'), '_______')];
    [None] when the word is outside the fragment. *)
Definition blankOut (word sentence : string) : option string :=
  match parseWord (list_ascii_of_string word) with
  | None => None
  | Some atoms =>
      Some (string_of_list_ascii
              (replaceFrom atoms None O (list_ascii_of_string sentence)))
  end.

End RegExp.

(* ================================================================= *)
(** ** Study component ([FlashcardStudy], [src/unnamed/part_001]) *)

(** The random source.  [random] is [Math.random()], a number in [[0, 1)];
    [sortRandom] is [Array.prototype.sort] called with a comparator that
    answers at random ([() => 0.5 - Math.random()]): the order it leaves is
    up to the engine and the draws, and all that is known of the result is
    that it holds the same elements. *)
Class RandomSource (Rand : Type) : Type := {
  random : Rand -> Q * Rand;
  random_range : forall r, (0 <= fst (random r))%Q /\ (fst (random r) < 1)%Q;
  sortRandom : forall A : Type, list A -> Rand -> list A * Rand;
  sortRandom_perm :
    forall (A : Type) (l : list A) (r : Rand),
      Permutation l (fst (sortRandom A l r))
}.

Arguments sortRandom {Rand _ A} _ _.

(** What a call that may throw gives back. *)
Inductive outcome (A : Type) : Type :=
| Returns (a : A)
| TypeError                (* a property read on [undefined] *)
| UnsupportedPattern.      (* the word leaves the modelled RegExp fragment *)

Arguments Returns {A} a.
Arguments TypeError {A}.
Arguments UnsupportedPattern {A}.

Inductive QuizType : Type :=
| SELECT_MEANING_EN_TO_VI
| SELECT_WORD_VI_TO_EN
| FILL_IN_BLANK.

Record QuizState : Type := mkQuizState {
  type : QuizType;
  question : string;
  correctAnswer : string;
  options : option (list string);
  userAnswer : option string;
  isCorrect : option bool;
  isSubmitted : bool
}.

Module Quiz.

Section Generate.

Context {Rand : Type} {RS : RandomSource Rand}.

(** [Math.floor(Math.random() * n)]. *)
Definition randomIndex (n : Z) (r : Rand) : Z * Rand :=
  let (x, r') := random r in (Qfloor (x * inject_Z n), r').

(** The candidate types: the two multiple-choice ones, and the blank when
    the card has an example. *)
Definition quizTypes (card : WordData) : list QuizType :=
  [SELECT_MEANING_EN_TO_VI; SELECT_WORD_VI_TO_EN]
  ++ (if 0 <? JS.len (examples card) then [FILL_IN_BLANK] else []).

(** [types[Math.floor(Math.random() * types.length)]]; the index is inside
    the array (lemma [chooseType_in] below), the default is never used. *)
Definition chooseType (card : WordData) (r : Rand) : QuizType * Rand :=
  let types := quizTypes card in
  let (i, r') := randomIndex (JS.len types) r in
  (match JS.get types i with
   | Some t => t
   | None => SELECT_MEANING_EN_TO_VI
   end, r').

(** [c.meanings[0].vietnamese]. *)
Definition firstVietnamese (c : WordData) : outcome string :=
  match JS.get (meanings c) 0 with
  | Some m => Returns (vietnamese m)
  | None => TypeError
  end.

(** [cards.map(f)] where [f] may throw. *)
Fixpoint mapOutcome {A B : Type} (f : A -> outcome B) (l : list A)
    : outcome (list B) :=
  match l with
  | [] => Returns []
  | x :: t =>
      match f x with
      | Returns y =>
          match mapOutcome f t with
          | Returns ys => Returns (y :: ys)
          | TypeError => TypeError
          | UnsupportedPattern => UnsupportedPattern
          end
      | TypeError => TypeError
      | UnsupportedPattern => UnsupportedPattern
      end
  end.

(** [allCards.filter(c => c.id !== card.id).sort(random).slice(0, 3)]. *)
Definition pickDistractors (card : WordData) (allCards : list WordData)
    (r : Rand) : list WordData * Rand :=
  let others := filter (fun c => negb (String.eqb (id c) (id card))) allCards in
  let (shuffled, r') := sortRandom others r in
  (firstn 3 shuffled, r').

Definition NA : string := "N/A".

(** [while (options.length < 4) options.push("N/A")]: the loop runs at
    most four times, which is the fuel given in [padOptions]. *)
Fixpoint padLoop (fuel : nat) (opts : list string) : list string :=
  match fuel with
  | O => opts
  | S f => if JS.len opts <? 4 then padLoop f (opts ++ [NA]) else opts
  end.

Definition padOptions (opts : list string) : list string := padLoop 4 opts.

(** The options of a multiple-choice question: the correct answer, the
    distractors, the padding, then the random sort. *)
Definition buildOptions (correct : string) (distractors : list string)
    (r : Rand) : list string * Rand :=
  sortRandom (padOptions (correct :: distractors)) r.

Definition newQuiz (t : QuizType) (q a : string) (opts : option (list string))
    : QuizState :=
  {| type := t; question := q; correctAnswer := a; options := opts;
     userAnswer := None; isCorrect := None; isSubmitted := false |}.

(** The body of [generateQuiz] once the type is drawn: the state handed to
    [setQuizState]. *)
Definition buildQuiz (t : QuizType) (card : WordData)
    (allCards : list WordData) (r : Rand) : outcome QuizState * Rand :=
  match t with
  | FILL_IN_BLANK =>
      let (i, r1) := randomIndex (JS.len (examples card)) r in
      match JS.get (examples card) i with
      | None => (TypeError, r1)
      | Some example =>
          match RegExp.blankOut (word card) (sentence example) with
          | None => (UnsupportedPattern, r1)
          | Some q => (Returns (newQuiz t q (word card) None), r1)
          end
      end
  | SELECT_MEANING_EN_TO_VI =>
      match firstVietnamese card with
      | Returns correct =>
          let (picked, r1) := pickDistractors card allCards r in
          match mapOutcome firstVietnamese picked with
          | Returns distractors =>
              let (opts, r2) := buildOptions correct distractors r1 in
              (Returns (newQuiz t (word card) correct (Some opts)), r2)
          | TypeError => (TypeError, r1)
          | UnsupportedPattern => (UnsupportedPattern, r1)
          end
      | TypeError => (TypeError, r)
      | UnsupportedPattern => (UnsupportedPattern, r)
      end
  | SELECT_WORD_VI_TO_EN =>
      match firstVietnamese card with
      | Returns q =>
          let (picked, r1) := pickDistractors card allCards r in
          let distractors := map word picked in
          let (opts, r2) := buildOptions (word card) distractors r1 in
          (Returns (newQuiz t q (word card) (Some opts)), r2)
      | TypeError => (TypeError, r)
      | UnsupportedPattern => (UnsupportedPattern, r)
      end
  end.

(** The text a card of the pool gives when it is taken as a distractor of
    a multiple-choice question of type [t]. *)
Definition distractorText (t : QuizType) (c : WordData) : outcome string :=
  match t with
  | SELECT_MEANING_EN_TO_VI => firstVietnamese c
  | _ => Returns (word c)
  end.

(** How many entries of [opts] are the string [a]. *)
Definition countOf (a : string) (opts : list string) : nat :=
  List.length (filter (String.eqb a) opts).

(** [generateQuiz]. *)
Definition generateQuiz (card : WordData) (allCards : list WordData)
    (r : Rand) : outcome QuizState * Rand :=
  let (t, r1) := chooseType card r in
  buildQuiz t card allCards r1.

End Generate.

(** What [generateQuiz] needs of a card and a pool to return a question
    whatever the type drawn: a first meaning on the card and on every
    other card of the pool, and a word inside the modelled fragment of
    patterns. *)
Definition askable (allCards : list WordData) (card : WordData) : Prop :=
  meanings card <> [] /\
  (forall c, In c allCards -> id c <> id card -> meanings c <> []) /\
  RegExp.parseWord (list_ascii_of_string (word card)) <> None.

End Quiz.

Inductive StudyMode : Type :=
| flashcard
| quiz.

(** The state of the component: the values held by its [useState] hooks. *)
Record Study : Type := mkStudy {
  currentIndex : Z;
  isFlipped : bool;
  studyQueue : list WordData;
  studyMode : StudyMode;
  quizState : option QuizState
}.

(** The update handed to [setCurrentIndex] inside a [setTimeout]. *)
Inductive IndexUpdate : Type :=
| Increment       (* [prev => prev + 1] *)
| Decrement       (* [prev => prev - 1] *)
| ToFirst.        (* [0] *)

(** What a handler asks of the world outside the component state. *)
Inductive Effect : Type :=
| SetTimeout (u : IndexUpdate)               (* [setTimeout(..., 300)] *)
| OnExit                                     (* [onExit()] *)
| OnRate (card : WordData) (success : bool). (* [onRate(card, success)] *)

Module Session.

Definition set_isFlipped (b : bool) (s : Study) : Study :=
  {| currentIndex := currentIndex s; isFlipped := b;
     studyQueue := studyQueue s; studyMode := studyMode s;
     quizState := quizState s |}.

Definition set_currentIndex (i : Z) (s : Study) : Study :=
  {| currentIndex := i; isFlipped := isFlipped s;
     studyQueue := studyQueue s; studyMode := studyMode s;
     quizState := quizState s |}.

Definition set_quizState (q : option QuizState) (s : Study) : Study :=
  {| currentIndex := currentIndex s; isFlipped := isFlipped s;
     studyQueue := studyQueue s; studyMode := studyMode s;
     quizState := q |}.

(** [const currentCard = studyQueue[currentIndex];] *)
Definition currentCard (s : Study) : option WordData :=
  JS.get (studyQueue s) (currentIndex s).

(** The comparison in [submitQuizAnswer]:
    [answer.trim().toLowerCase() === correctAnswer.trim().toLowerCase()]. *)
Definition gradeAnswer (answer correct : string) : bool :=
  String.eqb (JS.toLowerCase (JS.trim answer))
             (JS.toLowerCase (JS.trim correct)).

(** [{ ...prev, userAnswer: answer, isCorrect, isSubmitted: true }] *)
Definition submitted (answer : string) (ok : bool) (prev : QuizState)
    : QuizState :=
  {| type := type prev; question := question prev;
     correctAnswer := correctAnswer prev; options := options prev;
     userAnswer := Some answer; isCorrect := Some ok; isSubmitted := true |}.

(** [submitQuizAnswer]. *)
Definition submitQuizAnswer (answer : string) (s : Study)
    : Study * list Effect :=
  match quizState s with
  | None => (s, [])
  | Some q =>
      if isSubmitted q then (s, [])
      else
        let ok := gradeAnswer answer (correctAnswer q) in
        (set_quizState (Some (submitted answer ok q)) s, [])
  end.

(** The guard that opens [handleNext]:
    [studyMode === 'quiz' && quizState && !quizState.isSubmitted]. *)
Definition nextBlocked (s : Study) : bool :=
  match studyMode s, quizState s with
  | quiz, Some q => negb (isSubmitted q)
  | _, _ => false
  end.

(** [handleNext]. *)
Definition handleNext (reviewMode : bool) (s : Study) : Study * list Effect :=
  if nextBlocked s then (s, [])
  else if currentIndex s <? JS.len (studyQueue s) - 1 then
    (set_isFlipped false s, [SetTimeout Increment])
  else if negb reviewMode then
    (set_isFlipped false s, [SetTimeout ToFirst])
  else (s, [OnExit]).

(** [handlePrev]. *)
Definition handlePrev (s : Study) : Study * list Effect :=
  if 0 <? currentIndex s then
    (set_isFlipped false s, [SetTimeout Decrement])
  else (s, []).

(** [handleRating]; [onRate] tells whether the optional callback was given. *)
Definition handleRating (onRate reviewMode success : bool) (s : Study)
    : Study * list Effect :=
  match currentCard s with
  | Some card =>
      if onRate then
        let (s', effs) := handleNext reviewMode s in
        (s', OnRate card success :: effs)
      else (s, [])
  | None => (s, [])
  end.

(** A timer started by [SetTimeout] fires. *)
Definition fire (u : IndexUpdate) (s : Study) : Study :=
  match u with
  | Increment => set_currentIndex (currentIndex s + 1) s
  | Decrement => set_currentIndex (currentIndex s - 1) s
  | ToFirst => set_currentIndex 0 s
  end.

(** [setIsFlipped(prev => !prev)], the flip of the card. *)
Definition flip (s : Study) : Study := set_isFlipped (negb (isFlipped s)) s.


Definition set_studyQueue (q : list WordData) (s : Study) : Study :=
  {| currentIndex := currentIndex s; isFlipped := isFlipped s;
     studyQueue := q; studyMode := studyMode s;
     quizState := quizState s |}.

(** The state of the hooks when the component is mounted. *)
Definition mounted : Study :=
  {| currentIndex := 0; isFlipped := false; studyQueue := [];
     studyMode := flashcard; quizState := None |}.

(** The timers started by a handler fire, in the order they were started,
    before anything else happens; [onExit] and [onRate] are left to the
    caller. *)
Definition settle (res : Study * list Effect) : Study :=
  fold_left (fun s e => match e with
                        | SetTimeout u => fire u s
                        | _ => s
                        end) (snd res) (fst res).

(** [handleNext] and [handlePrev] followed by their timers. *)
Definition advance (reviewMode : bool) (s : Study) : Study :=
  settle (handleNext reviewMode s).

Definition retreat (s : Study) : Study := settle (handlePrev s).

(** The position points at a card of the queue. *)
Definition inQueue (s : Study) : Prop :=
  0 <= currentIndex s < JS.len (studyQueue s).

(** The keys the component listens to ([e.code]); any other key is
    [OtherKey]. *)
Inductive KeyCode : Type :=
| Space | Enter
| ArrowRight | KeyD
| ArrowLeft | KeyA
| ArrowUp | KeyW
| ArrowDown | KeyS
| Escape
| OtherKey.

Inductive Lang : Type :=
| en_US
| en_GB.

(** What a key press asks for: an effect of a handler, or [playAudio]. *)
Inductive Action : Type :=
| Emit (e : Effect)
| PlayAudio (lang : Lang).

(** [quizState.isCorrect || false] *)
Definition isCorrectOrFalse (q : QuizState) : bool :=
  match isCorrect q with
  | Some b => b
  | None => false
  end.

(** The body of [handleKeyDown] before its last line.  [inputValue] is
    [quizInputRef.current.value], [None] when the input is not mounted. *)
Definition keyInMode (onRate reviewMode : bool) (inputValue : option string)
    (code : KeyCode) (s : Study) : Study * list Action :=
  match studyMode s with
  | flashcard =>
      match code with
      | Space | Enter => (flip s, [])
      | ArrowRight | KeyD =>
          if (negb reviewMode || isFlipped s)%bool then
            let (s', effs) := handleNext reviewMode s in (s', map Emit effs)
          else (s, [])
      | ArrowLeft | KeyA =>
          let (s', effs) := handlePrev s in (s', map Emit effs)
      | ArrowUp | KeyW => (s, [PlayAudio en_US])
      | ArrowDown | KeyS => (s, [PlayAudio en_GB])
      | _ => (s, [])
      end
  | quiz =>
      match quizState s with
      | None => (s, [])
      | Some q =>
          match code with
          | Enter =>
              if isSubmitted q then
                let (s', effs) :=
                  handleRating onRate reviewMode (isCorrectOrFalse q) s in
                (s', map Emit effs)
              else
                match type q, inputValue with
                | FILL_IN_BLANK, Some v =>
                    let (s', effs) := submitQuizAnswer v s in
                    (s', map Emit effs)
                | _, _ => (s, [])
                end
          | _ => (s, [])
          end
      end
  end.

(** [handleKeyDown]: the mode-dependent part, then
    [if (e.code === 'Escape') onExit();]. *)
Definition handleKeyDown (onRate reviewMode : bool)
    (inputValue : option string) (code : KeyCode) (s : Study)
    : Study * list Action :=
  let (s', acts) := keyInMode onRate reviewMode inputValue code s in
  match code with
  | Escape => (s', acts ++ [Emit OnExit])
  | _ => (s', acts)
  end.

Section Effects.

Context {Rand : Type} {RS : RandomSource Rand}.

(** The first effect of the component: the queue is the cards in review
    mode and a random rearrangement of them otherwise. *)
Definition initQueue (cards : list WordData) (reviewMode : bool) (r : Rand)
    (s : Study) : Study * Rand :=
  if reviewMode then (set_studyQueue cards s, r)
  else let (queue, r') := sortRandom cards r in (set_studyQueue queue s, r').

(** The second effect, run when the position, the mode or the current card
    changes: a new question in quiz mode on a card, no question otherwise. *)
Definition refreshQuiz (allCards : list WordData) (r : Rand) (s : Study)
    : outcome Study * Rand :=
  match studyMode s, currentCard s with
  | quiz, Some card =>
      match Quiz.generateQuiz card allCards r with
      | (Returns q, r') => (Returns (set_quizState (Some q) s), r')
      | (TypeError, r') => (TypeError, r')
      | (UnsupportedPattern, r') => (UnsupportedPattern, r')
      end
  | _, _ => (Returns (set_quizState None s), r)
  end.


(** The second effect after a move from the state [before] to the state
    [after]: it depends on the position, the mode and the current card,
    and a move changes none of them unless it changes the position. *)
Definition afterMove (allCards : list WordData) (r : Rand)
    (before after : Study) : outcome Study * Rand :=
  if currentIndex after =? currentIndex before then (Returns after, r)
  else refreshQuiz allCards r after.

End Effects.

End Session.

(* ================================================================= *)
(** ** The flashcard component without the quiz
       ([src/components/FlashcardStudy.tsx]) *)

Module FlashcardStudy.

(** The state of its three hooks. *)
Record Deck : Type := mkDeck {
  currentIndex : Z;
  isFlipped : bool;
  studyQueue : list WordData
}.

Definition set_isFlipped (b : bool) (s : Deck) : Deck :=
  {| currentIndex := currentIndex s; isFlipped := b;
     studyQueue := studyQueue s |}.

(** [const currentCard = studyQueue[currentIndex];] *)
Definition currentCard (s : Deck) : option WordData :=
  JS.get (studyQueue s) (currentIndex s).

(** [handleNext]. *)
Definition handleNext (reviewMode : bool) (s : Deck) : Deck * list Effect :=
  if currentIndex s <? JS.len (studyQueue s) - 1 then
    (set_isFlipped false s, [SetTimeout Increment])
  else if negb reviewMode then
    (set_isFlipped false s, [SetTimeout ToFirst])
  else (s, [OnExit]).

(** [handlePrev]. *)
Definition handlePrev (s : Deck) : Deck * list Effect :=
  if 0 <? currentIndex s then
    (set_isFlipped false s, [SetTimeout Decrement])
  else (s, []).

(** [handleRating]; [onRate] tells whether the optional callback was given. *)
Definition handleRating (onRate reviewMode success : bool) (s : Deck)
    : Deck * list Effect :=
  match currentCard s with
  | Some card =>
      if onRate then
        let (s', effs) := handleNext reviewMode s in
        (s', OnRate card success :: effs)
      else (s, [])
  | None => (s, [])
  end.

(** The keys of the [switch] of [handleKeyDown]. *)
Inductive KeyCode : Type :=
| Space | Enter
| ArrowRight | KeyD
| ArrowLeft | KeyA
| ArrowUp | KeyW
| ArrowDown | KeyS
| Escape
| Digit1 | Digit2
| OtherKey.

(** [handleKeyDown]. *)
Definition handleKeyDown (onRate reviewMode : bool) (code : KeyCode)
    (s : Deck) : Deck * list Session.Action :=
  match code with
  | Space | Enter => (set_isFlipped (negb (isFlipped s)) s, [])
  | ArrowRight | KeyD =>
      if (negb reviewMode || isFlipped s)%bool then
        let (s', effs) := handleNext reviewMode s in
        (s', map Session.Emit effs)
      else (s, [])
  | ArrowLeft | KeyA =>
      if negb reviewMode then
        let (s', effs) := handlePrev s in (s', map Session.Emit effs)
      else (s, [])
  | ArrowUp | KeyW => (s, [Session.PlayAudio Session.en_US])
  | ArrowDown | KeyS => (s, [Session.PlayAudio Session.en_GB])
  | Escape => (s, [Session.Emit OnExit])
  | Digit1 =>
      if (reviewMode && isFlipped s)%bool then
        let (s', effs) := handleRating onRate reviewMode false s in
        (s', map Session.Emit effs)
      else (s, [])
  | Digit2 =>
      if (reviewMode && isFlipped s)%bool then
        let (s', effs) := handleRating onRate reviewMode true s in
        (s', map Session.Emit effs)
      else (s, [])
  | OtherKey => (s, [])
  end.

End FlashcardStudy.

(* ================================================================= *)
(** ** Clickable text ([src/components/ClickableText.tsx]) *)

Module ClickableText.

(** The letters of the component: [[a-zA-ZÀ-ÿ]], the last range being the
    code units 192 to 255. *)
Definition isLetter (c : ascii) : bool :=
  (JS.isLower c || JS.isUpper c || JS.in_range 192 255 c)%bool.

(** The class [[a-zA-ZÀ-ÿ0-9'-]]. *)
Definition isTokenChar (c : ascii) : bool :=
  (isLetter c || JS.isDigit c || N.eqb (JS.code c) 39
   || N.eqb (JS.code c) 45)%bool.

(** [text.split(/([a-zA-ZÀ-ÿ0-9'-]+)/)]: the text between the matches and,
    because of the capturing group, the matches themselves, in turn; a
    match is a longest run of characters of the class.  The array opens
    and closes with a piece of text between matches, empty when the text
    begins or ends with a match. *)
Fixpoint split (text : list ascii) : list (list ascii) :=
  match text with
  | [] => [[]]
  | c :: t =>
      if isTokenChar c then
        match split t with
        | [] :: w :: rest => [] :: (c :: w) :: rest
        | parts => [] :: [c] :: parts
        end
      else
        match split t with
        | d :: rest => (c :: d) :: rest
        | [] => [[c]]
        end
  end.

Definition isNil {A : Type} (l : list A) : bool :=
  match l with
  | [] => true
  | _ => false
  end.

(** The shape of the array that [split] returns, checked from the left:
    pieces of text between words and words take turns; a word is a
    non-empty run of characters of the class; a piece of text between
    words has none of them, and only the first and the last piece may be
    empty; the array ends on a piece of text between words.  [wordTurn]
    tells whether a word is due, [inner] whether the piece that is due is
    past the first. *)
Fixpoint alternating (wordTurn inner : bool) (parts : list (list ascii))
    : bool :=
  match parts with
  | [] => wordTurn
  | p :: rest =>
      if wordTurn then
        (negb (isNil p) && forallb isTokenChar p
         && alternating false true rest)%bool
      else
        (forallb (fun c => negb (isTokenChar c)) p
         && (negb inner || isNil rest || negb (isNil p))
         && alternating true inner rest)%bool
  end.

(** [/^[a-zA-ZÀ-ÿ0-9'-]+$/.test(part) && /[a-zA-ZÀ-ÿ]/.test(part)] *)
Definition isWord (part : list ascii) : bool :=
  (negb (Nat.eqb (List.length part) 0) && forallb isTokenChar part
   && existsb isLetter part)%bool.

(** What the component renders: nothing for an empty text, otherwise the
    parts in order, each with the mark of whether it can be clicked. *)
Definition render (text : string) (onWordClick : bool)
    : option (list (string * bool)) :=
  match text with
  | EmptyString => None
  | _ =>
      Some (map (fun part => (string_of_list_ascii part,
                              (isWord part && onWordClick)%bool))
                (split (list_ascii_of_string text)))
  end.

End ClickableText.

(* ================================================================= *)
(** ** The specification's wording, for comparison with the code *)

Module Spec.

(** [subsequence l l']: [l] is [l'] with some elements left out, the others in
    their order. *)
Inductive subsequence {A : Type} : list A -> list A -> Prop :=
| sub_nil : subsequence [] []
| sub_skip : forall x l l', subsequence l l' -> subsequence l (x :: l')
| sub_keep : forall x l l', subsequence l l' -> subsequence (x :: l) (x :: l').

(** "A card is due iff [nextReview] is absent or [nextReview <= now]." *)
Definition due (now : Z) (card : WordData) : Prop :=
  nextReview card = None \/
  exists t, nextReview card = Some t /\ t <= now.

Definition dueb (now : Z) (card : WordData) : bool :=
  match nextReview card with
  | None => true
  | Some t => t <=? now
  end.

(** "Interval table (days), indexed by level 1..5: [1, 3, 7, 14, 30]." *)
Definition interval (level : Z) : Z :=
  if level =? 1 then 1
  else if level =? 2 then 3
  else if level =? 3 then 7
  else if level =? 4 then 14
  else if level =? 5 then 30
  else 0.

Definition DAY : Z := 86400000.

(** Two words are the same "case-insensitively". *)
Definition sameWord (a b : string) : Prop :=
  JS.toLowerCase a = JS.toLowerCase b.

(** "The answer equals the correct answer after trimming whitespace and
    case-insensitive comparison." *)
Definition answersMatch (answer correct : string) : Prop :=
  sameWord (JS.trim answer) (JS.trim correct).

(** "Case-insensitive uniqueness" of the words of a collection. *)
Definition uniqueWords (cards : list WordData) : Prop :=
  NoDup (map (fun c => JS.toLowerCase (word c)) cards).

(** The word [w] occurs at the head of [input], ignoring case. *)
Fixpoint occursHere (w input : list ascii) : bool :=
  match w with
  | [] => true
  | x :: w' =>
      match input with
      | [] => false
      | c :: input' =>
          (Ascii.eqb (JS.lowerChar x) (JS.lowerChar c) &&
           occursHere w' input')%bool
      end
  end.

(** A "whole-word occurrence": an occurrence that is not embedded in a
    longer word, that is, with no word character right before it or right
    after it. *)
Definition wholeWordHere (w : list ascii) (before : option ascii)
    (input : list ascii) : bool :=
  (occursHere w input &&
   negb (RegExp.isWordCharAt before) &&
   negb (RegExp.isWordCharAt (hd_error (skipn (List.length w) input))))%bool.

(** "Replace every case-insensitive whole-word occurrence of the word in
    the sentence with a blank marker": left to right, an occurrence that
    is replaced is passed over as a whole. *)
Fixpoint blankFrom (w : list ascii) (before : option ascii) (skip : nat)
    (input : list ascii) : list ascii :=
  match input with
  | [] => []
  | c :: input' =>
      match skip with
      | S k => blankFrom w (Some c) k input'
      | O =>
          if wholeWordHere w before input then
            RegExp.BLANK ++ blankFrom w (Some c) (List.length w - 1) input'
          else c :: blankFrom w (Some c) O input'
      end
  end.

Definition blankWholeWords (w sentence : string) : string :=
  string_of_list_ascii
    (blankFrom (list_ascii_of_string w) None O (list_ascii_of_string sentence)).

(** The last character of [w], or [before] when [w] is empty. *)
Fixpoint lastChar (w : list ascii) (before : option ascii) : option ascii :=
  match w with
  | [] => before
  | x :: w' => lastChar w' (Some x)
  end.

(** A plain word: it begins and ends with a letter, a digit or an
    underscore, and none of its characters is pattern syntax. *)
Definition plainWord (w : string) : bool :=
  let cs := list_ascii_of_string w in
  (forallb (fun c => negb (RegExp.isSyntaxChar c)) cs &&
   RegExp.isWordCharAt (hd_error cs) &&
   RegExp.isWordCharAt (lastChar cs None))%bool.

(** The edit distance of two words given by their characters from the last
    to the first, by the recurrence on prefixes: against the empty word the
    distance is the length; when the last characters are equal, the
    distance of the words without them; otherwise one more than the least
    of the three distances obtained by dropping the last character of
    both, of the second, or of the first. *)
Fixpoint lev (a b : list ascii) : Z :=
  match a with
  | [] => JS.len b
  | x :: a' =>
      (fix lev_x (b : list ascii) : Z :=
         match b with
         | [] => JS.len a
         | y :: b' =>
             if Ascii.eqb x y then lev a' b'
             else Z.min (Z.min (lev a' b') (lev_x b')) (lev a' b) + 1
         end) b
  end.

(** The same distance by the usual three-way minimum (Wagner and Fischer):
    a substitution costs [0] on equal characters and [1] otherwise, an
    insertion or a deletion costs [1]. *)
Fixpoint wagnerFischer (a b : list ascii) : Z :=
  match a with
  | [] => JS.len b
  | x :: a' =>
      (fix wf_x (b : list ascii) : Z :=
         match b with
         | [] => JS.len a
         | y :: b' =>
             Z.min (Z.min (wagnerFischer a' b'
                           + (if Ascii.eqb x y then 0 else 1))
                          (wf_x b' + 1))
                   (wagnerFischer a' b + 1)
         end) b
  end.

(** The lower-cased characters of a string, last first. *)
Definition lowerRev (s : string) : list ascii :=
  rev (list_ascii_of_string (JS.toLowerCase s)).

(** The table of the distance, row by row.  [rprefs bs rb] lists the
    prefixes of the second word that extend the prefix [rb] by the
    characters [bs], each with its characters last first; [row ra b] is
    the row of the prefix [ra] of the first word: its distance to every
    prefix of [b], the empty one first. *)
Fixpoint rprefs (bs rb : list ascii) : list (list ascii) :=
  match bs with
  | [] => []
  | y :: bs' => (y :: rb) :: rprefs bs' (y :: rb)
  end.

Definition row (ra b : list ascii) : list Z :=
  map (lev ra) ([] :: rprefs b []).

(** The entries of the next row from a column on, computed from the
    entry above-left ([diag]), the entry to the left ([left]) and the
    entries above ([ups]). *)
Fixpoint rowStep (x : ascii) (bs : list ascii) (diag left : Z)
    (ups : list Z) : list Z :=
  match bs, ups with
  | y :: bs', up :: ups' =>
      let v := if Ascii.eqb x y then diag
               else Z.min (Z.min diag left) up + 1 in
      v :: rowStep x bs' up v ups'
  | _, _ => []
  end.

End Spec.

(* ================================================================= *)
(** ** Sample data *)

Module Sample.

Definition card (i w vi : string) (exs : list Example) (lvl next : option Z)
    : WordData :=
  {| id := i; word := w; phonetic := "";
     mnemonic := None;
     meanings := [ {| partOfSpeech := "n"; vietnamese := vi;
                      definition := "" |} ];
     examples := exs; synonyms := None; antonyms := None;
     createdAt := 0; srsLevel := lvl; nextReview := next |}.

Definition big : WordData := card "1" "big" "to" [] (Some 0) (Some 0).
Definition large : WordData := card "2" "large" "to" [] (Some 2) (Some 5000).
Definition cat : WordData :=
  card "3" "cat" "meo" [ {| sentence := "The cat sat"; translation := "" |} ]
       None None.
Definition mister : WordData :=
  card "4" "Mr."  "ong"
       [ {| sentence := "Mrs Smith met Mr. Jones"; translation := "" |} ]
       (Some 5) (Some 9000).

(** A random source that always draws [0] and whose sort leaves the array
    as it is. *)
Definition still : RandomSource unit :=
  {| random := fun r => (0%Q, r);
     random_range := fun _ => conj (Qle_refl 0) (eq_refl : (0 < 1)%Q);
     sortRandom := fun A l r => (l, r);
     sortRandom_perm := fun A l _ => Permutation_refl l |}.

(** A random source that always draws [1/2] and whose sort reverses the
    array. *)
Definition reversing : RandomSource unit :=
  {| random := fun r => ((1 # 2)%Q, r);
     random_range :=
       fun _ => conj (Qle_bool_imp_le 0 (1 # 2) eq_refl)
                     (eq_refl : (1 # 2 < 1)%Q);
     sortRandom := fun A l r => (rev l, r);
     sortRandom_perm := fun A l _ => Permutation_rev l |}.

(** A random source that always draws [9/10] and whose sort leaves the
    array as it is. *)
Definition late : RandomSource unit :=
  {| random := fun r => ((9 # 10)%Q, r);
     random_range :=
       fun _ => conj (Qle_bool_imp_le 0 (9 # 10) eq_refl)
                     (eq_refl : (9 # 10 < 1)%Q);
     sortRandom := fun A l r => (l, r);
     sortRandom_perm := fun A l _ => Permutation_refl l |}.

Definition nameless : WordData :=
  {| id := "5"; word := "ghost"; phonetic := ""; mnemonic := None;
     meanings := []; examples := []; synonyms := None; antonyms := None;
     createdAt := 0; srsLevel := None; nextReview := None |}.

Definition na : WordData := card "6" "N/A" "khong ap dung" [] None None.

End Sample.

(* ================================================================= *)
(** * Properties *)

(** ** Scheduler and card store *)

Lemma get_intervals :
  forall level, 1 <= level <= 5 ->
    JS.get App.SRS_INTERVALS (level - 1) = Some (Spec.interval level).
Proof.
  intros level H.
  assert (level = 1 \/ level = 2 \/ level = 3 \/ level = 4 \/ level = 5)
    as [-> | [-> | [-> | [-> | ->]]]] by lia; reflexivity.
Qed.

Lemma interval_table :
  forall level, 1 <= level <= 5 ->
    Spec.interval level = nth (Z.to_nat (level - 1)) [1; 3; 7; 14; 30] 0.
Proof.
  intros level H.
  assert (level = 1 \/ level = 2 \/ level = 3 \/ level = 4 \/ level = 5)
    as [-> | [-> | [-> | [-> | ->]]]] by lia; reflexivity.
Qed.

Lemma interval_pos : forall level, 1 <= level <= 5 -> 0 < Spec.interval level.
Proof.
  intros level H.
  assert (level = 1 \/ level = 2 \/ level = 3 \/ level = 4 \/ level = 5)
    as [-> | [-> | [-> | [-> | ->]]]] by lia; reflexivity.
Qed.

Lemma srsOutcome_success :
  forall card now,
    0 <= App.currentLevel card <= 5 ->
    App.srsOutcome card true now =
      (Z.min (App.currentLevel card + 1) 5,
       now + Spec.interval (Z.min (App.currentLevel card + 1) 5) * Spec.DAY).
Proof.
  intros card now H.
  unfold App.srsOutcome.
  change (JS.len App.SRS_INTERVALS) with 5.
  set (newLevel := Z.min (App.currentLevel card + 1) 5).
  assert (Hn : 1 <= newLevel <= 5) by (unfold newLevel; lia).
  rewrite (get_intervals _ Hn). simpl JS.or_num.
  pose proof (interval_pos _ Hn) as Hp.
  destruct (Spec.interval newLevel =? 0) eqn:E; [lia|].
  unfold Spec.DAY. f_equal. lia.
Qed.

Lemma srsOutcome_failure :
  forall card now, App.srsOutcome card false now = (1, now + Spec.DAY).
Proof. intros. unfold App.srsOutcome, Spec.DAY. f_equal. Qed.

(** The store after a rating, with the outcome named. *)
Lemma handleSRSRating_map :
  forall card success now savedCards,
    App.handleSRSRating card success now savedCards =
      map (fun c => if String.eqb (id c) (id card)
                    then with_srs c (fst (App.srsOutcome card success now))
                                    (snd (App.srsOutcome card success now))
                    else c)
          savedCards.
Proof.
  intros. unfold App.handleSRSRating.
  destruct (App.srsOutcome card success now); reflexivity.
Qed.

(** C1. For every card at current level [L] with [0 <= L <= 5] and every
    time [now], a success rating computes level [min (L+1) 5] and next
    review [now + table[min (L+1) 5 - 1] * 86,400,000] with the table
    [[1; 3; 7; 14; 30]], and the store gets exactly these two values on the
    cards that carry the rated card's id. *)
Theorem C1_success_rating :
  forall (card : WordData) (now L : Z) (savedCards : list WordData),
    App.currentLevel card = L ->
    0 <= L <= 5 ->
    let newLevel := Z.min (L + 1) 5 in
    let due := now + nth (Z.to_nat (newLevel - 1)) [1; 3; 7; 14; 30] 0
                     * 86400000 in
    App.SRS_INTERVALS = [1; 3; 7; 14; 30] /\
    App.srsOutcome card true now = (newLevel, due) /\
    App.handleSRSRating card true now savedCards =
      map (fun c => if String.eqb (id c) (id card)
                    then with_srs c newLevel due else c) savedCards /\
    (forall c, In c (App.handleSRSRating card true now savedCards) ->
               id c = id card ->
               srsLevel c = Some newLevel /\ nextReview c = Some due).
Proof.
  intros card now L savedCards HL Hr newLevel due.
  assert (Hout : App.srsOutcome card true now = (newLevel, due)).
  { rewrite srsOutcome_success by (rewrite HL; exact Hr).
    rewrite HL. unfold newLevel, due, Spec.DAY.
    rewrite interval_table by lia. reflexivity. }
  split; [reflexivity|]. split; [exact Hout|].
  rewrite handleSRSRating_map, Hout. simpl fst; simpl snd.
  split; [reflexivity|].
  intros c Hin Hid.
  apply in_map_iff in Hin. destruct Hin as [c0 [Hc0 _]].
  destruct (String.eqb (id c0) (id card)) eqn:E.
  - subst c. split; reflexivity.
  - subst c0. apply String.eqb_neq in E. contradiction.
Qed.

Lemma C1_success_rating_witness :
  App.currentLevel Sample.large = 2 /\
  App.srsOutcome Sample.large true 1000 = (3, 1000 + 7 * 86400000) /\
  App.handleSRSRating Sample.large true 1000 [Sample.big; Sample.large] =
    [Sample.big; with_srs Sample.large 3 604801000].
Proof.
  split; [reflexivity|].
  pose proof (C1_success_rating Sample.large 1000 2 [Sample.big; Sample.large]
                eq_refl ltac:(lia)) as [_ [H1 [H2 _]]].
  split; [exact H1 | exact H2].
Defined.

(** C2. For every card, whatever its level, and every time [now], a failure
    rating computes level 1 and next review [now + 86,400,000], and the
    store gets exactly these two values on the cards that carry the rated
    card's id. *)
Theorem C2_failure_rating :
  forall (card : WordData) (now : Z) (savedCards : list WordData),
    App.srsOutcome card false now = (1, now + 86400000) /\
    App.handleSRSRating card false now savedCards =
      map (fun c => if String.eqb (id c) (id card)
                    then with_srs c 1 (now + 86400000) else c) savedCards /\
    (forall c, In c (App.handleSRSRating card false now savedCards) ->
               id c = id card ->
               srsLevel c = Some 1 /\ nextReview c = Some (now + 86400000)).
Proof.
  intros card now savedCards.
  assert (Hout : App.srsOutcome card false now = (1, now + 86400000))
    by apply srsOutcome_failure.
  split; [exact Hout|].
  rewrite handleSRSRating_map, Hout. simpl fst; simpl snd.
  split; [reflexivity|].
  intros c Hin Hid.
  apply in_map_iff in Hin. destruct Hin as [c0 [Hc0 _]].
  destruct (String.eqb (id c0) (id card)) eqn:E.
  - subst c. split; reflexivity.
  - subst c0. apply String.eqb_neq in E. contradiction.
Qed.

Lemma C2_failure_rating_witness :
  App.handleSRSRating Sample.mister false 500
    [Sample.mister; Sample.cat] =
    [with_srs Sample.mister 1 86400500; Sample.cat] /\
  srsLevel (with_srs Sample.mister 1 86400500) = Some 1.
Proof.
  pose proof (C2_failure_rating Sample.mister 500 [Sample.mister; Sample.cat])
    as [_ [H2 H3]].
  split; [exact H2|].
  apply (H3 (with_srs Sample.mister 1 86400500)); [|reflexivity].
  rewrite H2. left. reflexivity.
Defined.

(** ** Due cards *)

Lemma dueb_spec : forall now card, Spec.dueb now card = true <-> Spec.due now card.
Proof.
  intros now card. unfold Spec.dueb, Spec.due.
  destruct (nextReview card) as [t|].
  - rewrite Z.leb_le. split.
    + intros H. right. exists t. split; [reflexivity | exact H].
    + intros [H | [t' [H Hle]]]; [discriminate | congruence].
  - split; [intros _; left; reflexivity | reflexivity].
Qed.

(** What the test of [getDueCards] decides, for any [now]: a [nextReview]
    of [0] is falsy and so counts as absent. *)
Lemma isDue_falsy :
  forall now card,
    App.isDue now card =
      (Spec.dueb now card ||
       match nextReview card with Some t => t =? 0 | None => false end)%bool.
Proof.
  intros now card. unfold App.isDue, Spec.dueb, JS.not_num, JS.le_num.
  destruct (nextReview card) as [t|]; [|reflexivity].
  apply orb_comm.
Qed.

Lemma isDue_dueb :
  forall now card, 0 <= now -> App.isDue now card = Spec.dueb now card.
Proof.
  intros now card Hnow. rewrite isDue_falsy. unfold Spec.dueb.
  destruct (nextReview card) as [t|]; [|reflexivity].
  destruct (t =? 0) eqn:E.
  - apply Z.eqb_eq in E. subst t.
    rewrite orb_true_r. symmetry. apply Z.leb_le. exact Hnow.
  - apply orb_false_r.
Qed.

Lemma filter_subsequence :
  forall (A : Type) (f : A -> bool) (l : list A), Spec.subsequence (filter f l) l.
Proof.
  intros A f l. induction l as [|x l IH]; simpl.
  - constructor.
  - destruct (f x); constructor; exact IH.
Qed.

(** C3. For every collection and every time [now] (epoch milliseconds, so
    not negative), [getDueCards] is the filter of the collection by "the
    next review is absent or at most [now]": it returns exactly the cards
    that are due, in the order of the collection, as a subsequence of it,
    and leaves out every other card.  The collection is an argument that
    is only read. *)
Theorem C3_due_cards :
  forall (now : Z) (savedCards : list WordData),
    0 <= now ->
    App.getDueCards now savedCards = filter (Spec.dueb now) savedCards /\
    Spec.subsequence (App.getDueCards now savedCards) savedCards /\
    (forall card, In card (App.getDueCards now savedCards) <->
                  In card savedCards /\ Spec.due now card).
Proof.
  intros now savedCards Hnow.
  assert (E : App.getDueCards now savedCards = filter (Spec.dueb now) savedCards).
  { unfold App.getDueCards. apply filter_ext.
    intros c. apply isDue_dueb. exact Hnow. }
  split; [exact E|]. split.
  - apply filter_subsequence.
  - intros card. rewrite E, filter_In, dueb_spec. reflexivity.
Qed.

Lemma C3_due_cards_witness :
  App.getDueCards 1000
    [Sample.large; Sample.big; Sample.mister; Sample.cat] =
    [Sample.big; Sample.cat].
Proof.
  exact (proj1 (C3_due_cards 1000
                  [Sample.large; Sample.big; Sample.mister; Sample.cat]
                  ltac:(lia))).
Defined.

(** ** Frame of a rating *)

Lemma nth_error_map_some :
  forall (A B : Type) (f : A -> B) (l : list A) (i : nat) (x : A),
    nth_error l i = Some x -> nth_error (map f l) i = Some (f x).
Proof.
  intros A B f l. induction l as [|y l IH]; intros [|i] x H; simpl in *;
    try discriminate.
  - injection H as ->. reflexivity.
  - apply IH. exact H.
Qed.

Lemma NoDup_map_nth_error :
  forall (A B : Type) (f : A -> B) (l : list A),
    NoDup (map f l) ->
    forall i j x y,
      nth_error l i = Some x -> nth_error l j = Some y -> f x = f y -> i = j.
Proof.
  intros A B f l. induction l as [|z l IH]; intros Hnd i j x y Hi Hj Hf.
  - destruct i; discriminate.
  - simpl in Hnd. inversion Hnd as [|? ? Hnotin Hnd']; subst.
    destruct i as [|i], j as [|j]; simpl in *.
    + reflexivity.
    + injection Hi as ->. exfalso. apply Hnotin. rewrite Hf.
      apply in_map. eapply nth_error_In. exact Hj.
    + injection Hj as ->. exfalso. apply Hnotin. rewrite <- Hf.
      apply in_map. eapply nth_error_In. exact Hi.
    + f_equal. eapply IH; eassumption.
Qed.

(** C9. A rating keeps the length of the store and the order of its cards
    (the identifiers read the same, position by position); a card whose id
    differs from the rated card's stays as it was, in every field; a card
    whose id matches gets the new level and review time and keeps its other
    fields; and when the identifiers of the store are distinct, at most one
    position holds a card that matches. *)
Theorem C9_rating_frame :
  forall (card : WordData) (success : bool) (now : Z)
         (savedCards : list WordData),
    let after := App.handleSRSRating card success now savedCards in
    let newLevel := fst (App.srsOutcome card success now) in
    let due := snd (App.srsOutcome card success now) in
    List.length after = List.length savedCards /\
    map id after = map id savedCards /\
    (forall i c, nth_error savedCards i = Some c -> id c <> id card ->
                 nth_error after i = Some c) /\
    (forall i c, nth_error savedCards i = Some c -> id c = id card ->
                 nth_error after i = Some (with_srs c newLevel due)) /\
    (NoDup (map id savedCards) ->
     forall i j ci cj,
       nth_error savedCards i = Some ci -> nth_error savedCards j = Some cj ->
       id ci = id card -> id cj = id card -> i = j).
Proof.
  intros card success now savedCards after newLevel due.
  unfold after. rewrite handleSRSRating_map. fold newLevel. fold due.
  split; [apply length_map|]. split.
  - rewrite map_map. apply map_ext. intros c.
    destruct (String.eqb (id c) (id card)); reflexivity.
  - split; [|split].
    + intros i c Hi Hne.
      rewrite (nth_error_map_some _ _ _ _ _ _ Hi).
      apply String.eqb_neq in Hne. rewrite Hne. reflexivity.
    + intros i c Hi He.
      rewrite (nth_error_map_some _ _ _ _ _ _ Hi).
      apply String.eqb_eq in He. rewrite He. reflexivity.
    + intros Hnd i j ci cj Hi Hj Hci Hcj.
      apply (NoDup_map_nth_error _ _ id savedCards Hnd i j ci cj Hi Hj).
      congruence.
Qed.

Lemma C9_rating_frame_witness :
  nth_error (App.handleSRSRating Sample.large true 1000
               [Sample.big; Sample.large; Sample.cat]) 2 = Some Sample.cat /\
  nth_error (App.handleSRSRating Sample.large true 1000
               [Sample.big; Sample.large; Sample.cat]) 1 =
    Some (with_srs Sample.large 3 604801000).
Proof.
  pose proof (C9_rating_frame Sample.large true 1000
                [Sample.big; Sample.large; Sample.cat])
    as [_ [_ [Hother [Hsame _]]]].
  split.
  - apply (Hother 2%nat Sample.cat); [reflexivity | discriminate].
  - apply (Hsame 1%nat Sample.large); reflexivity.
Defined.

(** ** Adding a card *)

Lemma existsb_sameWord :
  forall (w : WordData) (savedCards : list WordData),
    existsb (fun c => String.eqb (JS.toLowerCase (word c))
                                 (JS.toLowerCase (word w))) savedCards = true
    <-> exists c, In c savedCards /\ Spec.sameWord (word c) (word w).
Proof.
  intros w savedCards. rewrite existsb_exists. unfold Spec.sameWord.
  split; intros [c [Hin H]]; exists c; split; try exact Hin.
  - apply String.eqb_eq. exact H.
  - apply String.eqb_eq. exact H.
Qed.

(** C10. Adding a card whose word equals, ignoring case, the word of a card
    already in the store leaves the store as it is; otherwise the new card
    is put in front and the cards that were there follow in their order;
    so a store whose words are distinct ignoring case stays so. *)
Theorem C10_add_card :
  forall (w : WordData) (savedCards : list WordData),
    ((exists c, In c savedCards /\ Spec.sameWord (word c) (word w)) ->
     App.addToFlashcards w savedCards = savedCards) /\
    ((forall c, In c savedCards -> ~ Spec.sameWord (word c) (word w)) ->
     App.addToFlashcards w savedCards = w :: savedCards) /\
    (Spec.uniqueWords savedCards ->
     Spec.uniqueWords (App.addToFlashcards w savedCards)).
Proof.
  intros w savedCards. unfold App.addToFlashcards.
  pose proof (existsb_sameWord w savedCards) as Hex.
  destruct (existsb _ savedCards) eqn:E; simpl.
  - split; [reflexivity|]. split; [|tauto].
    intros Hno. destruct (proj1 Hex eq_refl) as [c [Hin Hs]].
    exfalso. exact (Hno c Hin Hs).
  - split; [|split].
    + intros H. apply Hex in H. discriminate.
    + reflexivity.
    + intros Hu. unfold Spec.uniqueWords in *. simpl. constructor; [|exact Hu].
      intros Hin. apply in_map_iff in Hin. destruct Hin as [c [Hc Hin]].
      assert (false = true); [|discriminate].
      apply Hex. exists c. split; assumption.
Qed.

Lemma C10_add_card_witness :
  App.addToFlashcards (Sample.card "9" "BIG" "lon" [] None None)
    [Sample.big; Sample.cat] = [Sample.big; Sample.cat] /\
  App.addToFlashcards Sample.large [Sample.big; Sample.cat] =
    [Sample.large; Sample.big; Sample.cat].
Proof.
  split.
  - apply (proj1 (C10_add_card (Sample.card "9" "BIG" "lon" [] None None)
                    [Sample.big; Sample.cat])).
    exists Sample.big. split; [left; reflexivity | reflexivity].
  - apply (proj1 (proj2 (C10_add_card Sample.large [Sample.big; Sample.cat]))).
    intros c [<- | [<- | []]]; discriminate.
Defined.

(** ** Similarity of two empty strings *)

Example similarity_kitten :
  Similarity.calculateSimilarity "Kitten" "sitting" = Some 57.
Proof. reflexivity. Qed.

Example similarity_same_word :
  Similarity.calculateSimilarity "Apple" "apple" = Some 100.
Proof. reflexivity. Qed.

(** C4. On two empty strings [calculateSimilarity] takes its early return
    and gives [1], not [100]; on any other pair of equal strings tried it
    gives [100], the percentage its comment announces. *)
Theorem C4_empty_similarity :
  Similarity.calculateSimilarity "" "" = Some 1 /\
  Similarity.calculateSimilarity "" "" <> Some 100 /\
  Similarity.calculateSimilarity "a" "a" = Some 100.
Proof.
  split; [reflexivity|]. split; [discriminate | reflexivity].
Qed.

(** ** Study session *)

(** C7. In quiz mode with a question that is not submitted, [handleNext]
    returns at once: the component state (position, flip, queue, mode and
    quiz state) is the one it was given, no timer is started and [onExit]
    is not called. *)
Theorem C7_next_blocked :
  forall (reviewMode : bool) (s : Study) (q : QuizState),
    studyMode s = quiz ->
    quizState s = Some q ->
    isSubmitted q = false ->
    Session.handleNext reviewMode s = (s, []).
Proof.
  intros reviewMode s q Hm Hq Hs.
  unfold Session.handleNext, Session.nextBlocked.
  rewrite Hm, Hq, Hs. reflexivity.
Qed.

Lemma C7_next_blocked_witness :
  Session.handleNext true
    {| currentIndex := 0; isFlipped := true;
       studyQueue := [Sample.big; Sample.cat]; studyMode := quiz;
       quizState := Some (Quiz.newQuiz SELECT_WORD_VI_TO_EN "to" "big"
                            (Some ["big"; "cat"; "N/A"; "N/A"]%string)) |}
  = ({| currentIndex := 0; isFlipped := true;
        studyQueue := [Sample.big; Sample.cat]; studyMode := quiz;
        quizState := Some (Quiz.newQuiz SELECT_WORD_VI_TO_EN "to" "big"
                             (Some ["big"; "cat"; "N/A"; "N/A"]%string)) |}, []).
Proof.
  apply (C7_next_blocked true _
           (Quiz.newQuiz SELECT_WORD_VI_TO_EN "to" "big"
              (Some ["big"; "cat"; "N/A"; "N/A"]%string)));
    reflexivity.
Defined.

(** Outside that case [handleNext] does act: a submitted question lets the
    position move on. *)
Example next_after_submit :
  Session.handleNext true
    {| currentIndex := 0; isFlipped := true;
       studyQueue := [Sample.big; Sample.cat]; studyMode := quiz;
       quizState := Some (Session.submitted "big" true
                            (Quiz.newQuiz SELECT_WORD_VI_TO_EN "to" "big"
                               None)) |}
  = ({| currentIndex := 0; isFlipped := false;
        studyQueue := [Sample.big; Sample.cat]; studyMode := quiz;
        quizState := Some (Session.submitted "big" true
                             (Quiz.newQuiz SELECT_WORD_VI_TO_EN "to" "big"
                                None)) |},
     [SetTimeout Increment]).
Proof. reflexivity. Qed.

Lemma gradeAnswer_spec :
  forall answer correct,
    Session.gradeAnswer answer correct = true <->
    Spec.answersMatch answer correct.
Proof.
  intros. unfold Session.gradeAnswer, Spec.answersMatch, Spec.sameWord.
  apply String.eqb_eq.
Qed.

(** C8. On a quiz state that is already submitted, [submitQuizAnswer]
    gives back the component state unchanged.  Otherwise only the quiz
    state changes: it is marked submitted, holds the answer as given, and
    is marked correct exactly when the answer and the correct answer are
    equal once trimmed and lower-cased; type, question, correct answer and
    options stay.  In both cases the queue of cards is the same and nothing
    is asked of the card store (no effect is emitted). *)
Theorem C8_submit_answer :
  forall (answer : string) (s : Study) (q : QuizState),
    quizState s = Some q ->
    (isSubmitted q = true ->
     Session.submitQuizAnswer answer s = (s, [])) /\
    (isSubmitted q = false ->
     exists q' ok,
       Session.submitQuizAnswer answer s
         = (Session.set_quizState (Some q') s, []) /\
       isSubmitted q' = true /\
       userAnswer q' = Some answer /\
       isCorrect q' = Some ok /\
       (ok = true <-> Spec.answersMatch answer (correctAnswer q)) /\
       type q' = type q /\ question q' = question q /\
       correctAnswer q' = correctAnswer q /\ options q' = options q) /\
    studyQueue (fst (Session.submitQuizAnswer answer s)) = studyQueue s /\
    currentIndex (fst (Session.submitQuizAnswer answer s)) = currentIndex s /\
    snd (Session.submitQuizAnswer answer s) = [].
Proof.
  intros answer s q Hq. unfold Session.submitQuizAnswer. rewrite Hq.
  destruct (isSubmitted q) eqn:E.
  - split; [reflexivity|]. split; [discriminate|]. repeat split.
  - split; [discriminate|]. split; [|repeat split].
    intros _.
    exists (Session.submitted answer
              (Session.gradeAnswer answer (correctAnswer q)) q),
           (Session.gradeAnswer answer (correctAnswer q)).
    repeat split; try reflexivity; apply gradeAnswer_spec.
Qed.

Lemma C8_submit_answer_witness :
  let asked := Quiz.newQuiz SELECT_WORD_VI_TO_EN "to" "big" None in
  let study := fun q => {| currentIndex := 0; isFlipped := false;
                           studyQueue := [Sample.big]; studyMode := quiz;
                           quizState := Some q |} in
  Session.submitQuizAnswer "  BIG " (study (Session.submitted "dog" false asked))
    = (study (Session.submitted "dog" false asked), []) /\
  exists q',
    Session.submitQuizAnswer "  BIG " (study asked) = (study q', []) /\
    isSubmitted q' = true /\ userAnswer q' = Some "  BIG "%string /\
    isCorrect q' = Some true.
Proof.
  intros asked study. split.
  - apply (proj1 (C8_submit_answer "  BIG "
                    (study (Session.submitted "dog" false asked))
                    (Session.submitted "dog" false asked) eq_refl)).
    reflexivity.
  - destruct (proj1 (proj2 (C8_submit_answer "  BIG " (study asked) asked
                              eq_refl)) eq_refl)
      as [q' [ok [Hs [Hsub [Hans [Hok [Hiff _]]]]]]].
    exists q'. split; [exact Hs|]. split; [exact Hsub|].
    split; [exact Hans|]. rewrite Hok. f_equal.
    apply Hiff. reflexivity.
Defined.

Example submit_trimmed_answer :
  Session.submitQuizAnswer "  BIG "
    {| currentIndex := 0; isFlipped := false;
       studyQueue := [Sample.big]; studyMode := quiz;
       quizState := Some (Quiz.newQuiz SELECT_WORD_VI_TO_EN "to" "big" None) |}
  = ({| currentIndex := 0; isFlipped := false;
        studyQueue := [Sample.big]; studyMode := quiz;
        quizState := Some (Session.submitted "  BIG " true
                             (Quiz.newQuiz SELECT_WORD_VI_TO_EN "to" "big"
                                None)) |}, []).
Proof. reflexivity. Qed.

(** ** Options of a multiple-choice question *)

Section QuizOptions.

Context {Rand : Type} {RS : RandomSource Rand}.

Lemma randomIndex_range :
  forall (n : Z) (r : Rand),
    0 < n -> 0 <= fst (Quiz.randomIndex n r) < n.
Proof.
  intros n r Hn. unfold Quiz.randomIndex.
  pose proof (random_range r) as [H0 H1].
  destruct (random r) as [x r']. cbn [fst] in *.
  assert (Hn' : (inject_Z 0 < inject_Z n)%Q) by (rewrite <- Zlt_Qlt; exact Hn).
  change (inject_Z 0) with 0%Q in Hn'.
  split.
  - change 0 with (Qfloor 0). apply Qfloor_resp_le.
    apply Qmult_le_0_compat; [exact H0 | apply Qlt_le_weak; exact Hn'].
  - rewrite Zlt_Qlt.
    apply Qle_lt_trans with (y := (x * inject_Z n)%Q); [apply Qfloor_le|].
    setoid_replace (inject_Z n) with (1 * inject_Z n)%Q at 2 by ring.
    apply Qmult_lt_compat_r; assumption.
Qed.

Lemma chooseType_in :
  forall (card : WordData) (r : Rand),
    In (fst (Quiz.chooseType card r)) (Quiz.quizTypes card).
Proof.
  intros card r. unfold Quiz.chooseType.
  set (types := Quiz.quizTypes card).
  assert (Hlen : 0 < JS.len types).
  { unfold types, Quiz.quizTypes, JS.len. rewrite length_app. simpl. lia. }
  pose proof (randomIndex_range (JS.len types) r Hlen) as Hi.
  destruct (Quiz.randomIndex (JS.len types) r) as [i r']. cbn [fst] in *.
  unfold JS.get. destruct (i <? 0) eqn:E; [lia|].
  destruct (nth_error types (Z.to_nat i)) eqn:En.
  - exact (nth_error_In types (Z.to_nat i) En).
  - apply nth_error_None in En. unfold JS.len in Hi. lia.
Qed.

Lemma padLoop_repeat :
  forall (fuel : nat) (opts : list string),
    Quiz.padLoop fuel opts =
      opts ++ repeat Quiz.NA (Nat.min fuel (4 - List.length opts)).
Proof.
  induction fuel as [|fuel IH]; intros opts; cbn [Quiz.padLoop].
  - rewrite Nat.min_0_l. cbn [repeat]. rewrite app_nil_r. reflexivity.
  - unfold JS.len. destruct (Z.of_nat (List.length opts) <? 4) eqn:E.
    + rewrite IH, length_app. cbn [List.length].
      rewrite <- app_assoc. f_equal.
      apply Z.ltb_lt in E.
      replace (4 - List.length opts)%nat
        with (S (4 - (List.length opts + 1)))%nat by lia.
      rewrite <- Nat.succ_min_distr. reflexivity.
    + apply Z.ltb_ge in E.
      replace (4 - List.length opts)%nat with 0%nat by lia.
      rewrite Nat.min_0_r. cbn [repeat]. rewrite app_nil_r. reflexivity.
Qed.

Lemma padOptions_repeat :
  forall opts,
    Quiz.padOptions opts = opts ++ repeat Quiz.NA (4 - List.length opts).
Proof.
  intros opts. unfold Quiz.padOptions. rewrite padLoop_repeat.
  rewrite Nat.min_r by lia. reflexivity.
Qed.

Lemma countOf_app :
  forall a l1 l2,
    Quiz.countOf a (l1 ++ l2) = (Quiz.countOf a l1 + Quiz.countOf a l2)%nat.
Proof.
  intros. unfold Quiz.countOf. rewrite filter_app, length_app. reflexivity.
Qed.

Lemma countOf_perm :
  forall a l1 l2, Permutation l1 l2 -> Quiz.countOf a l1 = Quiz.countOf a l2.
Proof.
  intros a l1 l2 H. unfold Quiz.countOf.
  induction H; simpl.
  - reflexivity.
  - destruct (String.eqb a x); simpl; congruence.
  - destruct (String.eqb a x), (String.eqb a y); reflexivity.
  - congruence.
Qed.

Lemma countOf_repeat_other :
  forall a b n, a <> b -> Quiz.countOf a (repeat b n) = 0%nat.
Proof.
  intros a b n H. unfold Quiz.countOf.
  induction n; simpl; [reflexivity|].
  apply String.eqb_neq in H. rewrite H. exact IHn.
Qed.

Lemma countOf_absent :
  forall a l, (forall x, In x l -> x <> a) -> Quiz.countOf a l = 0%nat.
Proof.
  intros a l H. unfold Quiz.countOf.
  induction l as [|x l IH]; simpl; [reflexivity|].
  destruct (String.eqb a x) eqn:E.
  - apply String.eqb_eq in E. exfalso. apply (H x); [left; reflexivity|].
    symmetry. exact E.
  - apply IH. intros y Hy. apply H. right. exact Hy.
Qed.

Lemma In_firstn :
  forall (A : Type) (n : nat) (l : list A) (x : A),
    In x (firstn n l) -> In x l.
Proof.
  intros A n. induction n as [|n IH]; intros [|y l] x H; simpl in *;
    try contradiction.
  destruct H as [H | H]; [left; exact H | right; apply IH; exact H].
Qed.

(** The cards picked as distractors: at most three, all from the pool, none
    with the id of the card asked about. *)
Lemma pickDistractors_spec :
  forall card allCards r,
    List.length (fst (Quiz.pickDistractors card allCards r)) =
      Nat.min 3 (List.length
                   (filter (fun c => negb (String.eqb (id c) (id card)))
                           allCards)) /\
    (forall c, In c (fst (Quiz.pickDistractors card allCards r)) ->
               In c allCards /\ id c <> id card).
Proof.
  intros card allCards r. unfold Quiz.pickDistractors.
  set (others := filter _ allCards).
  pose proof (sortRandom_perm _ others r) as Hp.
  destruct (sortRandom others r) as [shuffled r']. cbn [fst] in *.
  split.
  - rewrite length_firstn, (Permutation_length Hp). reflexivity.
  - intros c Hin. apply In_firstn in Hin.
    apply (Permutation_in _ (Permutation_sym Hp)) in Hin.
    unfold others in Hin. apply filter_In in Hin. destruct Hin as [Hin Hne].
    split; [exact Hin|]. apply String.eqb_neq.
    destruct (String.eqb (id c) (id card)); [discriminate | reflexivity].
Qed.

(** The options built from a correct answer and at most three distractors. *)
Lemma buildOptions_spec :
  forall correct distractors r,
    Permutation
      (correct :: distractors ++ repeat Quiz.NA (3 - List.length distractors))
      (fst (Quiz.buildOptions correct distractors r)).
Proof.
  intros correct distractors r. unfold Quiz.buildOptions.
  pose proof (sortRandom_perm _ (Quiz.padOptions (correct :: distractors)) r)
    as Hp.
  destruct (sortRandom (Quiz.padOptions (correct :: distractors)) r)
    as [sorted r']. cbn [fst] in *.
  rewrite padOptions_repeat in Hp.
  change (List.length (correct :: distractors))
    with (S (List.length distractors)) in Hp.
  replace (4 - S (List.length distractors))%nat
    with (3 - List.length distractors)%nat in Hp by lia.
  rewrite <- app_comm_cons in Hp. exact Hp.
Qed.

(** What follows for any list of options that is a rearrangement of the
    correct answer, at most three distractors and the padding. *)
Lemma options_shape :
  forall correct distractors opts,
    (List.length distractors <= 3)%nat ->
    Permutation
      (correct :: distractors ++ repeat Quiz.NA (3 - List.length distractors))
      opts ->
    List.length opts = 4%nat /\
    In correct opts /\
    (1 <= Quiz.countOf correct opts)%nat /\
    (correct <> Quiz.NA ->
     (forall d, In d distractors -> d <> correct) ->
     Quiz.countOf correct opts = 1%nat).
Proof.
  intros correct distractors opts Hlen Hp.
  assert (Hc : Quiz.countOf correct opts =
               (1 + Quiz.countOf correct distractors
                  + Quiz.countOf correct
                      (repeat Quiz.NA (3 - List.length distractors)))%nat).
  { rewrite <- (countOf_perm _ _ _ Hp).
    change (correct :: distractors
              ++ repeat Quiz.NA (3 - List.length distractors))
      with ([correct] ++ (distractors
              ++ repeat Quiz.NA (3 - List.length distractors))).
    rewrite !countOf_app. unfold Quiz.countOf at 1. cbn [filter].
    rewrite String.eqb_refl. cbn [List.length]. lia. }
  split; [|split; [|split]].
  - rewrite <- (Permutation_length Hp). cbn [List.length].
    rewrite length_app, repeat_length. lia.
  - apply (Permutation_in _ Hp). left. reflexivity.
  - lia.
  - intros Hna Hd. rewrite Hc.
    rewrite (countOf_absent _ _ Hd), (countOf_repeat_other _ _ _ Hna).
    reflexivity.
Qed.

Lemma firstVietnamese_total :
  forall c, meanings c <> [] -> exists v, Quiz.firstVietnamese c = Returns v.
Proof.
  intros c H. unfold Quiz.firstVietnamese.
  destruct (meanings c) as [|m ms]; [contradiction|].
  exists (vietnamese m). reflexivity.
Qed.

Lemma mapOutcome_total :
  forall (A B : Type) (f : A -> outcome B) (l : list A),
    (forall x, In x l -> exists y, f x = Returns y) ->
    exists ys,
      Quiz.mapOutcome f l = Returns ys /\
      List.length ys = List.length l /\
      (forall y, In y ys -> exists x, In x l /\ f x = Returns y).
Proof.
  intros A B f l. induction l as [|x l IH]; intros H.
  - exists []. repeat split. intros y [].
  - destruct (H x (or_introl eq_refl)) as [y Hy].
    destruct IH as [ys [Hys [Hlen Hin]]].
    { intros z Hz. apply H. right. exact Hz. }
    exists (y :: ys). cbn [Quiz.mapOutcome]. rewrite Hy, Hys.
    split; [reflexivity|]. split; [cbn [List.length]; congruence|].
    intros z [<- | Hz].
    + exists x. split; [left; reflexivity | exact Hy].
    + destruct (Hin z Hz) as [x' [Hx' Hf]].
      exists x'. split; [right; exact Hx' | exact Hf].
Qed.

(** The multiple-choice branches of [generateQuiz], for a type [t] already
    drawn. *)
Lemma buildQuiz_select :
  forall (t : QuizType) (card : WordData) (allCards : list WordData) (r : Rand),
    t <> FILL_IN_BLANK ->
    meanings card <> [] ->
    (t = SELECT_MEANING_EN_TO_VI ->
     forall c, In c allCards -> id c <> id card -> meanings c <> []) ->
    exists q distractors opts,
      fst (Quiz.buildQuiz t card allCards r) = Returns q /\
      type q = t /\ isSubmitted q = false /\ userAnswer q = None /\
      Quiz.distractorText
        match t with
        | SELECT_MEANING_EN_TO_VI => SELECT_WORD_VI_TO_EN
        | _ => SELECT_MEANING_EN_TO_VI
        end card = Returns (question q) /\
      Quiz.distractorText t card = Returns (correctAnswer q) /\
      options q = Some opts /\
      List.length distractors =
        Nat.min 3 (List.length
                     (filter (fun c => negb (String.eqb (id c) (id card)))
                             allCards)) /\
      (forall d, In d distractors ->
         exists c, In c allCards /\ id c <> id card /\
                   Quiz.distractorText t c = Returns d) /\
      Permutation
        (correctAnswer q
           :: distractors ++ repeat Quiz.NA (3 - List.length distractors))
        opts.
Proof.
  intros t card allCards r Ht Hcard Hpool.
  destruct (firstVietnamese_total card Hcard) as [v Hv].
  pose proof (pickDistractors_spec card allCards r) as [Hlen Hpick].
  destruct t; [| |contradiction]; cbn [Quiz.buildQuiz]; rewrite Hv;
    destruct (Quiz.pickDistractors card allCards r) as [picked r1];
    cbn [fst] in *.
  - destruct (mapOutcome_total _ _ Quiz.firstVietnamese picked)
      as [ds [Hds [Hdlen Hdin]]].
    { intros c Hc. apply firstVietnamese_total.
      destruct (Hpick c Hc) as [Hin Hne]. exact (Hpool eq_refl c Hin Hne). }
    rewrite Hds.
    pose proof (buildOptions_spec v ds r1) as Hp.
    destruct (Quiz.buildOptions v ds r1) as [opts r2]. cbn [fst] in *.
    exists (Quiz.newQuiz SELECT_MEANING_EN_TO_VI (word card) v (Some opts)),
           ds, opts.
    repeat split; try reflexivity; try assumption.
    + congruence.
    + intros d Hd. destruct (Hdin d Hd) as [c [Hc Hf]].
      destruct (Hpick c Hc) as [Hin Hne].
      exists c. repeat split; assumption.
  - pose proof (buildOptions_spec (word card) (map word picked) r1) as Hp.
    destruct (Quiz.buildOptions (word card) (map word picked) r1)
      as [opts r2]. cbn [fst] in *.
    exists (Quiz.newQuiz SELECT_WORD_VI_TO_EN v (word card) (Some opts)),
           (map word picked), opts.
    repeat split; try reflexivity; try assumption.
    + rewrite length_map. exact Hlen.
    + intros d Hd. apply in_map_iff in Hd. destruct Hd as [c [Hw Hc]].
      destruct (Hpick c Hc) as [Hin Hne].
      exists c. repeat split; try assumption. cbn. congruence.
Qed.

(** The cards picked are a selection from the other cards of the pool:
    together with the cards left over they make up the pool without the
    card asked about, so no card of the pool is picked twice. *)
Lemma pickDistractors_selection :
  forall card allCards r,
    exists rest,
      Permutation (fst (Quiz.pickDistractors card allCards r) ++ rest)
                  (filter (fun c => negb (String.eqb (id c) (id card)))
                          allCards).
Proof.
  intros card allCards r. unfold Quiz.pickDistractors.
  set (others := filter _ allCards).
  pose proof (sortRandom_perm _ others r) as Hp.
  destruct (sortRandom others r) as [shuffled r']. cbn [fst] in *.
  exists (skipn 3 shuffled). rewrite firstn_skipn.
  apply Permutation_sym. exact Hp.
Qed.

Lemma mapOutcome_returns :
  forall (A B : Type) (f : A -> outcome B) (l : list A) (ys : list B),
    Quiz.mapOutcome f l = Returns ys ->
    List.length ys = List.length l /\
    (forall y, In y ys -> exists x, In x l /\ f x = Returns y).
Proof.
  intros A B f l. induction l as [|x l IH]; intros ys H.
  - cbn in H. injection H as <-. split; [reflexivity | intros y []].
  - cbn [Quiz.mapOutcome] in H.
    destruct (f x) as [y | |] eqn:Hy; try discriminate.
    destruct (Quiz.mapOutcome f l) as [ys' | |]; try discriminate.
    injection H as <-. destruct (IH ys' eq_refl) as [Hlen Hin].
    split; [cbn [List.length]; congruence|].
    intros z [<- | Hz].
    + exists x. split; [left; reflexivity | exact Hy].
    + destruct (Hin z Hz) as [x' [Hx' Hf]].
      exists x'. split; [right; exact Hx' | exact Hf].
Qed.

Lemma mapOutcome_word :
  forall t picked,
    t <> SELECT_MEANING_EN_TO_VI ->
    Quiz.mapOutcome (Quiz.distractorText t) picked = Returns (map word picked).
Proof.
  intros t picked Ht. induction picked as [|c picked IH]; [reflexivity|].
  cbn [Quiz.mapOutcome map]. rewrite IH.
  destruct t; [contradiction | reflexivity | reflexivity].
Qed.

(** The multiple-choice branches of [generateQuiz] with the cards picked:
    the distractors are the texts of exactly these cards, in their order. *)
Lemma buildQuiz_picked :
  forall (t : QuizType) (card : WordData) (allCards : list WordData) (r : Rand),
    t <> FILL_IN_BLANK ->
    meanings card <> [] ->
    (t = SELECT_MEANING_EN_TO_VI ->
     forall c, In c allCards -> id c <> id card -> meanings c <> []) ->
    exists q distractors opts,
      fst (Quiz.buildQuiz t card allCards r) = Returns q /\
      type q = t /\
      Quiz.distractorText t card = Returns (correctAnswer q) /\
      options q = Some opts /\
      Quiz.mapOutcome (Quiz.distractorText t)
                      (fst (Quiz.pickDistractors card allCards r))
        = Returns distractors /\
      Permutation
        (correctAnswer q
           :: distractors ++ repeat Quiz.NA (3 - List.length distractors))
        opts.
Proof.
  intros t card allCards r Ht Hcard Hpool.
  destruct (firstVietnamese_total card Hcard) as [v Hv].
  pose proof (pickDistractors_spec card allCards r) as [_ Hpick].
  destruct t; [| |contradiction]; cbn [Quiz.buildQuiz]; rewrite Hv;
    destruct (Quiz.pickDistractors card allCards r) as [picked r1];
    cbn [fst] in *.
  - destruct (mapOutcome_total _ _ Quiz.firstVietnamese picked)
      as [ds [Hds _]].
    { intros c Hc. apply firstVietnamese_total.
      destruct (Hpick c Hc) as [Hin Hne]. exact (Hpool eq_refl c Hin Hne). }
    rewrite Hds.
    pose proof (buildOptions_spec v ds r1) as Hp.
    destruct (Quiz.buildOptions v ds r1) as [opts r2]. cbn [fst] in *.
    exists (Quiz.newQuiz SELECT_MEANING_EN_TO_VI (word card) v (Some opts)),
           ds, opts.
    repeat split; try reflexivity; try assumption.
  - pose proof (buildOptions_spec (word card) (map word picked) r1) as Hp.
    destruct (Quiz.buildOptions (word card) (map word picked) r1)
      as [opts r2]. cbn [fst] in *.
    exists (Quiz.newQuiz SELECT_WORD_VI_TO_EN v (word card) (Some opts)),
           (map word picked), opts.
    repeat split; try reflexivity; try assumption.
    apply mapOutcome_word. discriminate.
Qed.

(** C5 (amended). For every card with at least one meaning, every pool and
    every random source, when the type drawn is one of the two
    multiple-choice types (and, for the meaning question, every other card
    of the pool has a meaning to give), [generateQuiz] returns a quiz of
    that type.  Its distractors are the texts of the cards picked:
    [min 3 n] cards selected from the [n] cards of the pool that have
    another id, no card of the pool being taken twice.  Its options are a
    rearrangement of the correct answer, these distractors and as many
    ["N/A"] as are missing to reach four: so exactly four options, the
    correct answer among them; and the correct answer is there exactly
    once when it is not ["N/A"] and no other card of the pool gives the
    same text. *)
Theorem C5_quiz_options :
  forall (card : WordData) (allCards : list WordData) (r : Rand),
    let t := fst (Quiz.chooseType card r) in
    let others := filter (fun c => negb (String.eqb (id c) (id card)))
                         allCards in
    t <> FILL_IN_BLANK ->
    meanings card <> [] ->
    (t = SELECT_MEANING_EN_TO_VI ->
     forall c, In c allCards -> id c <> id card -> meanings c <> []) ->
    exists q picked distractors opts,
      fst (Quiz.generateQuiz card allCards r) = Returns q /\
      type q = t /\
      Quiz.distractorText t card = Returns (correctAnswer q) /\
      options q = Some opts /\
      (exists rest, Permutation (picked ++ rest) others) /\
      List.length picked = Nat.min 3 (List.length others) /\
      Quiz.mapOutcome (Quiz.distractorText t) picked = Returns distractors /\
      List.length distractors = Nat.min 3 (List.length others) /\
      Permutation
        (correctAnswer q
           :: distractors ++ repeat Quiz.NA (3 - List.length distractors))
        opts /\
      List.length opts = 4%nat /\
      In (correctAnswer q) opts /\
      (1 <= Quiz.countOf (correctAnswer q) opts)%nat /\
      (correctAnswer q <> Quiz.NA ->
       (forall c, In c allCards -> id c <> id card ->
                  Quiz.distractorText t c <> Returns (correctAnswer q)) ->
       Quiz.countOf (correctAnswer q) opts = 1%nat).
Proof.
  intros card allCards r t others Ht Hcard Hpool.
  unfold Quiz.generateQuiz. unfold t in *. clear t.
  destruct (Quiz.chooseType card r) as [t r1]. cbn [fst] in *.
  destruct (buildQuiz_picked t card allCards r1 Ht Hcard Hpool)
    as [q [ds [opts [Hq [Hty [Hans [Hopts [Hmap Hp]]]]]]]].
  pose proof (pickDistractors_spec card allCards r1) as [Hlen Hpick].
  pose proof (pickDistractors_selection card allCards r1) as Hsel.
  set (picked := fst (Quiz.pickDistractors card allCards r1)) in *.
  fold others in Hlen, Hsel.
  destruct (mapOutcome_returns _ _ _ _ _ Hmap) as [Hdlen Hds].
  assert (Hle : (List.length ds <= 3)%nat) by (rewrite Hdlen, Hlen; lia).
  destruct (options_shape (correctAnswer q) ds opts Hle Hp)
    as [H4 [Hin [Hge Hone]]].
  exists q, picked, ds, opts.
  split; [exact Hq|]. split; [exact Hty|]. split; [exact Hans|].
  split; [exact Hopts|]. split; [exact Hsel|]. split; [exact Hlen|].
  split; [exact Hmap|]. split; [congruence|]. split; [exact Hp|].
  split; [exact H4|]. split; [exact Hin|]. split; [exact Hge|].
  intros Hna Hno. apply Hone; [exact Hna|].
  intros d Hd Heq. destruct (Hds d Hd) as [c [Hc Hf]].
  destruct (Hpick c Hc) as [Hcin Hne].
  apply (Hno c Hcin Hne). rewrite Hf, Heq. reflexivity.
Qed.

End QuizOptions.

Lemma C5_quiz_options_witness :
  exists q picked opts,
    fst (Quiz.generateQuiz (RS := Sample.reversing) Sample.big
           [Sample.big; Sample.cat] tt) = Returns q /\
    type q = SELECT_WORD_VI_TO_EN /\
    options q = Some opts /\
    (exists rest, Permutation (picked ++ rest) [Sample.cat]) /\
    List.length picked = 1%nat /\
    List.length opts = 4%nat /\
    Quiz.countOf (correctAnswer q) opts = 1%nat.
Proof.
  destruct (C5_quiz_options (RS := Sample.reversing) Sample.big
              [Sample.big; Sample.cat] tt)
    as [q [picked [ds [opts [Hq [Hty [Hans [Hopts [Hsel [Hlen
         [_ [_ [_ [H4 [_ [_ Hone]]]]]]]]]]]]]]]].
  - discriminate.
  - discriminate.
  - discriminate.
  - exists q, picked, opts.
    injection Hans as Hans.
    split; [exact Hq|]. split; [exact Hty|]. split; [exact Hopts|].
    split; [exact Hsel|]. split; [exact Hlen|]. split; [exact H4|].
    apply Hone.
    + rewrite <- Hans. discriminate.
    + rewrite <- Hans. intros c [<- | [<- | []]] Hne.
      * exfalso. apply Hne. reflexivity.
      * discriminate.
Defined.

(** C5 as stated fails: two cards with the same first meaning.  With the
    random source that draws [0] and leaves arrays in place, the question
    on [big] is a meaning question whose four options hold the correct
    answer ["to"] twice, once as the answer and once as the distractor
    taken from [large]. *)
Lemma C5_counterexample :
  meanings Sample.big <> [] /\
  fst (Quiz.generateQuiz (RS := Sample.still) Sample.big
         [Sample.big; Sample.large] tt)
    = Returns (Quiz.newQuiz SELECT_MEANING_EN_TO_VI "big" "to"
                 (Some ["to"; "to"; "N/A"; "N/A"]%string)) /\
  Quiz.countOf "to" ["to"; "to"; "N/A"; "N/A"]%string = 2%nat /\
  Quiz.countOf "to" ["to"; "to"; "N/A"; "N/A"]%string <> 1%nat.
Proof.
  split; [discriminate|]. split; [reflexivity|].
  split; [reflexivity | discriminate].
Qed.

(** The sentinel is an ordinary string: a card whose word is ["N/A"] meets
    it again in the padding. *)
Example padding_repeats_answer :
  fst (Quiz.generateQuiz (RS := Sample.reversing) Sample.na
         [Sample.na; Sample.cat] tt)
    = Returns (Quiz.newQuiz SELECT_WORD_VI_TO_EN "khong ap dung" "N/A"
                 (Some ["N/A"; "N/A"; "cat"; "N/A"]%string)).
Proof. reflexivity. Qed.

(** A card of the pool without a meaning makes the meaning question throw
    when it is picked. *)
Example pool_card_without_meaning :
  fst (Quiz.generateQuiz (RS := Sample.still) Sample.big
         [Sample.big; Sample.nameless] tt) = TypeError.
Proof. reflexivity. Qed.


(** ** The fill-in-the-blank question *)

Lemma lower_upper : forall c, JS.lowerChar (JS.upperChar c) = JS.lowerChar c.
Proof. intros [[] [] [] [] [] [] [] []]; reflexivity. Qed.

Lemma upper_lower : forall c, JS.upperChar (JS.lowerChar c) = JS.upperChar c.
Proof. intros [[] [] [] [] [] [] [] []]; reflexivity. Qed.

Lemma isWordChar_upper :
  forall c, RegExp.isWordChar (JS.upperChar c) = RegExp.isWordChar c.
Proof. intros [[] [] [] [] [] [] [] []]; reflexivity. Qed.

(** Equality under the flag [i] is equality of the lower-cased characters. *)
Lemma ignoreCase_lower :
  forall x c,
    Ascii.eqb (JS.upperChar x) (JS.upperChar c) =
    Ascii.eqb (JS.lowerChar x) (JS.lowerChar c).
Proof.
  intros x c.
  destruct (Ascii.eqb (JS.upperChar x) (JS.upperChar c)) eqn:E;
    destruct (Ascii.eqb (JS.lowerChar x) (JS.lowerChar c)) eqn:F;
    try reflexivity.
  - apply Ascii.eqb_eq in E. apply Ascii.eqb_neq in F. exfalso. apply F.
    rewrite <- (lower_upper x), <- (lower_upper c), E. reflexivity.
  - apply Ascii.eqb_eq in F. apply Ascii.eqb_neq in E. exfalso. apply E.
    rewrite <- (upper_lower x), <- (upper_lower c), F. reflexivity.
Qed.

Lemma ignoreCase_wordChar :
  forall x c,
    Ascii.eqb (JS.lowerChar x) (JS.lowerChar c) = true ->
    RegExp.isWordChar c = RegExp.isWordChar x.
Proof.
  intros x c H. rewrite <- ignoreCase_lower in H. apply Ascii.eqb_eq in H.
  rewrite <- (isWordChar_upper c), <- (isWordChar_upper x), H. reflexivity.
Qed.

Lemma parseWord_plain :
  forall w,
    forallb (fun c => negb (RegExp.isSyntaxChar c)) w = true ->
    RegExp.parseWord w = Some (map RegExp.Lit w).
Proof.
  induction w as [|c w IH]; intros H; [reflexivity|].
  cbn [forallb] in H. apply andb_true_iff in H. destruct H as [Hc Hw].
  cbn [RegExp.parseWord map]. rewrite (IH Hw).
  apply negb_true_iff in Hc.
  destruct (Ascii.eqb c RegExp.dot) eqn:E.
  - apply Ascii.eqb_eq in E. subst c. discriminate.
  - rewrite Hc. reflexivity.
Qed.

Lemma lastChar_wordChar :
  forall w b b',
    RegExp.isWordCharAt b = RegExp.isWordCharAt b' ->
    RegExp.isWordCharAt (Spec.lastChar w b) =
    RegExp.isWordCharAt (Spec.lastChar w b').
Proof.
  intros [|x w] b b' H; [exact H | reflexivity].
Qed.

(** The literal atoms of a word match exactly where the word occurs,
    ignoring case; the match takes as many characters as the word has and
    ends on a character of the same class as the last one of the word. *)
Lemma matchAtoms_literal :
  forall w before input,
    match RegExp.matchAtoms (map RegExp.Lit w) before input with
    | Some (l, rest) =>
        Spec.occursHere w input = true /\
        rest = skipn (List.length w) input /\
        RegExp.isWordCharAt l = RegExp.isWordCharAt (Spec.lastChar w before)
    | None => Spec.occursHere w input = false
    end.
Proof.
  induction w as [|x w IH]; intros before input.
  - cbn. repeat split.
  - cbn [map RegExp.matchAtoms Spec.occursHere List.length skipn Spec.lastChar].
    destruct input as [|c input]; [reflexivity|].
    unfold RegExp.matchAtom. rewrite ignoreCase_lower.
    destruct (Ascii.eqb (JS.lowerChar x) (JS.lowerChar c)) eqn:E;
      [|reflexivity].
    specialize (IH (Some c) input).
    destruct (RegExp.matchAtoms (map RegExp.Lit w) (Some c) input)
      as [[l rest]|].
    + destruct IH as [Ho [Hr Hl]]. cbn [andb]. repeat split; try assumption.
      rewrite Hl. apply lastChar_wordChar. cbn.
      apply ignoreCase_wordChar. exact E.
    + cbn [andb]. exact IH.
Qed.

Lemma matchHere_wholeWord :
  forall w before input,
    RegExp.isWordCharAt (hd_error w) = true ->
    RegExp.isWordCharAt (Spec.lastChar w None) = true ->
    RegExp.matchHere (map RegExp.Lit w) before input =
    Spec.wholeWordHere w before input.
Proof.
  intros w before input Hfirst Hlast.
  unfold RegExp.matchHere, Spec.wholeWordHere.
  pose proof (matchAtoms_literal w before input) as H.
  destruct (RegExp.matchAtoms (map RegExp.Lit w) before input)
    as [[l rest]|].
  - destruct H as [Ho [Hr Hl]]. rewrite Ho, <- Hr. cbn [andb].
    destruct w as [|x w]; [discriminate|].
    destruct input as [|c input]; [discriminate|].
    cbn [Spec.occursHere] in Ho. apply andb_true_iff in Ho.
    destruct Ho as [Hxc _].
    cbn [hd_error RegExp.isWordCharAt] in Hfirst.
    assert (Hc : RegExp.isWordChar c = true)
      by (rewrite (ignoreCase_wordChar x c Hxc); exact Hfirst).
    assert (Hl' : RegExp.isWordCharAt l = true).
    { rewrite Hl. cbn [Spec.lastChar] in *. exact Hlast. }
    unfold RegExp.wordBoundary. cbn [hd_error RegExp.isWordCharAt].
    rewrite Hc, Hl'. rewrite xorb_true_r. reflexivity.
  - rewrite H. rewrite andb_false_r. reflexivity.
Qed.

Lemma replaceFrom_blankFrom :
  forall w,
    RegExp.isWordCharAt (hd_error w) = true ->
    RegExp.isWordCharAt (Spec.lastChar w None) = true ->
    forall input before skip,
      RegExp.replaceFrom (map RegExp.Lit w) before skip input =
      Spec.blankFrom w before skip input.
Proof.
  intros w Hfirst Hlast.
  induction input as [|c input IH]; intros before skip.
  - cbn [RegExp.replaceFrom Spec.blankFrom].
    destruct skip; [|reflexivity].
    rewrite (matchHere_wholeWord w before [] Hfirst Hlast).
    unfold Spec.wholeWordHere.
    destruct w as [|x w]; [discriminate|]. reflexivity.
  - cbn [RegExp.replaceFrom Spec.blankFrom].
    destruct skip as [|k]; [|apply IH].
    rewrite (matchHere_wholeWord w before (c :: input) Hfirst Hlast).
    destruct (Spec.wholeWordHere w before (c :: input)).
    + rewrite length_map.
      destruct w as [|x w]; [discriminate|].
      cbn [List.length]. rewrite Nat.sub_succ, Nat.sub_0_r.
      f_equal. apply IH.
    + f_equal. apply IH.
Qed.

(** For a plain word the code does what the specification says: the
    question is the sentence with every whole-word occurrence of the word,
    ignoring case, replaced by the blank. *)
Lemma blankOut_plain_word :
  forall w sentence,
    Spec.plainWord w = true ->
    RegExp.blankOut w sentence = Some (Spec.blankWholeWords w sentence).
Proof.
  intros w sentence H. unfold Spec.plainWord in H.
  apply andb_true_iff in H. destruct H as [H Hlast].
  apply andb_true_iff in H. destruct H as [Hplain Hfirst].
  unfold RegExp.blankOut, Spec.blankWholeWords.
  rewrite (parseWord_plain _ Hplain).
  rewrite (replaceFrom_blankFrom _ Hfirst Hlast). reflexivity.
Qed.

(** The two sentences of the specification, with the word "cat". *)
Example blank_cats :
  RegExp.blankOut "cat" "The cats sat on the mat"
    = Some "The cats sat on the mat"%string.
Proof. reflexivity. Qed.

Example blank_cat :
  RegExp.blankOut "cat" "The cat sat" = Some "The _______ sat"%string.
Proof. reflexivity. Qed.

Example blank_cat_ignoring_case :
  fst (Quiz.generateQuiz (RS := Sample.late)
         (Sample.card "3" "cat" "meo"
            [ {| sentence := "Cat, cat. CATS or a cat?"; translation := "" |} ]
            None None) [] tt)
    = Returns (Quiz.newQuiz FILL_IN_BLANK "_______, _______. CATS or a _______?"
                 "cat" None).
Proof. reflexivity. Qed.

(** C6. The word is pasted into the pattern without escaping.  For the card
    "Mr." with the example "Mrs Smith met Mr. Jones", whatever the random
    source, the question built is "_______ Smith met Mr. Jones": the dot of
    the word matches the "s" of "Mrs", which is blanked though the word
    does not occur there, and the occurrence of "Mr." itself stays, since
    no word boundary follows its dot.  Replacing the whole-word occurrences
    of the word gives "Mrs Smith met _______ Jones". *)
Theorem C6_fill_in_blank :
  forall (Rand : Type) (RS : RandomSource Rand)
         (allCards : list WordData) (r : Rand),
    fst (Quiz.buildQuiz FILL_IN_BLANK Sample.mister allCards r)
      = Returns (Quiz.newQuiz FILL_IN_BLANK "_______ Smith met Mr. Jones"
                   "Mr." None) /\
    Spec.blankWholeWords "Mr." "Mrs Smith met Mr. Jones"
      = "Mrs Smith met _______ Jones"%string /\
    RegExp.blankOut "Mr." "Mrs Smith met Mr. Jones"
      <> Some (Spec.blankWholeWords "Mr." "Mrs Smith met Mr. Jones").
Proof.
  intros Rand RS allCards r. split; [|split; [reflexivity | discriminate]].
  cbn [Quiz.buildQuiz].
  pose proof (randomIndex_range (JS.len (examples Sample.mister)) r
                ltac:(reflexivity)) as Hi.
  destruct (Quiz.randomIndex (JS.len (examples Sample.mister)) r) as [i r1].
  cbn [fst] in Hi. change (JS.len (examples Sample.mister)) with 1 in Hi.
  assert (i = 0) as -> by lia. reflexivity.
Qed.

(* ================================================================= *)
(** * Further properties of the card store *)

Lemma filter_all :
  forall (A : Type) (f : A -> bool) (l : list A),
    (forall x, In x l -> f x = true) -> filter f l = l.
Proof.
  intros A f l. induction l as [|x l IH]; intros H; [reflexivity|].
  cbn [filter]. rewrite (H x (or_introl eq_refl)). f_equal.
  apply IH. intros y Hy. apply H. right. exact Hy.
Qed.

Lemma NoDup_map_filter :
  forall (A B : Type) (g : A -> B) (f : A -> bool) (l : list A),
    NoDup (map g l) -> NoDup (map g (filter f l)).
Proof.
  intros A B g f l. induction l as [|x l IH]; intros H; [exact H|].
  cbn [map] in H. inversion H as [|? ? Hnotin Hnd]; subst.
  cbn [filter]. destruct (f x).
  - cbn [map]. constructor; [|apply IH; exact Hnd].
    intros Hin. apply Hnotin. apply in_map_iff in Hin.
    destruct Hin as [y [Hy Hin]]. apply filter_In in Hin.
    apply in_map_iff. exists y. split; [exact Hy | apply Hin].
  - apply IH. exact Hnd.
Qed.

Lemma NoDup_map_inj_on :
  forall (A B : Type) (g : A -> B) (l : list A),
    NoDup (map g l) ->
    forall x y, In x l -> In y l -> g x = g y -> x = y.
Proof.
  intros A B g l. induction l as [|z l IH]; intros H x y Hx Hy Hg.
  - contradiction.
  - cbn [map] in H. inversion H as [|? ? Hnotin Hnd]; subst.
    destruct Hx as [<- | Hx], Hy as [<- | Hy].
    + reflexivity.
    + exfalso. apply Hnotin. rewrite Hg. apply in_map. exact Hy.
    + exfalso. apply Hnotin. rewrite <- Hg. apply in_map. exact Hx.
    + apply IH; assumption.
Qed.

Lemma isWordSaved_spec :
  forall w savedCards,
    App.isWordSaved w savedCards = true <->
    exists c, In c savedCards /\ Spec.sameWord (word c) w.
Proof.
  intros w savedCards. unfold App.isWordSaved, Spec.sameWord.
  rewrite existsb_exists.
  split; intros [c [Hin H]]; exists c; split; try exact Hin;
    apply String.eqb_eq; exact H.
Qed.

Lemma addToFlashcards_cases :
  forall w savedCards,
    App.addToFlashcards w savedCards =
      if App.isWordSaved (word w) savedCards then savedCards
      else w :: savedCards.
Proof.
  intros w savedCards. unfold App.addToFlashcards, App.isWordSaved.
  destruct (existsb _ savedCards); reflexivity.
Qed.

(** X1. A word that was just added is found by [isWordSaved] under any
    spelling that differs only in case, whether the card went in or an
    older card already held the word; and adding the same card a second
    time changes nothing. *)
Theorem add_then_saved :
  forall (w : WordData) (spelling : string) (savedCards : list WordData),
    Spec.sameWord (word w) spelling ->
    App.isWordSaved spelling (App.addToFlashcards w savedCards) = true /\
    App.addToFlashcards w (App.addToFlashcards w savedCards)
      = App.addToFlashcards w savedCards.
Proof.
  intros w spelling savedCards Hs.
  assert (Hsaved : App.isWordSaved (word w)
                     (App.addToFlashcards w savedCards) = true).
  { rewrite addToFlashcards_cases.
    destruct (App.isWordSaved (word w) savedCards) eqn:E; [exact E|].
    apply isWordSaved_spec. exists w.
    split; [left; reflexivity | reflexivity]. }
  split.
  - apply isWordSaved_spec in Hsaved. destruct Hsaved as [c [Hin Hc]].
    apply isWordSaved_spec. exists c. split; [exact Hin|].
    unfold Spec.sameWord in *. congruence.
  - rewrite (addToFlashcards_cases w (App.addToFlashcards w savedCards)).
    rewrite Hsaved. reflexivity.
Qed.

Lemma add_then_saved_witness :
  App.isWordSaved "LARGE" (App.addToFlashcards Sample.large [Sample.big])
    = true.
Proof.
  apply (proj1 (add_then_saved Sample.large "LARGE" [Sample.big] eq_refl)).
Defined.

(** X2. Adding a card and removing it again gives back the store, when
    the card is really new: no stored card has its word (ignoring case)
    or its id. *)
Theorem remove_after_add :
  forall (w : WordData) (savedCards : list WordData),
    (forall c, In c savedCards -> ~ Spec.sameWord (word c) (word w)) ->
    (forall c, In c savedCards -> id c <> id w) ->
    App.removeCard (id w) (App.addToFlashcards w savedCards) = savedCards.
Proof.
  intros w savedCards Hword Hid.
  rewrite addToFlashcards_cases.
  destruct (App.isWordSaved (word w) savedCards) eqn:E.
  - apply isWordSaved_spec in E. destruct E as [c [Hin Hc]].
    exfalso. exact (Hword c Hin Hc).
  - unfold App.removeCard. cbn [filter]. rewrite String.eqb_refl.
    cbn [negb]. apply filter_all. intros c Hc.
    apply negb_true_iff. apply String.eqb_neq. apply Hid. exact Hc.
Qed.

Lemma remove_after_add_witness :
  App.removeCard "2" (App.addToFlashcards Sample.large
                        [Sample.big; Sample.cat])
    = [Sample.big; Sample.cat].
Proof.
  apply (remove_after_add Sample.large [Sample.big; Sample.cat]).
  - intros c [<- | [<- | []]]; discriminate.
  - intros c [<- | [<- | []]]; discriminate.
Defined.

(** X3. [removeCard] keeps exactly the cards with another id, in their
    order, and a store whose words are distinct ignoring case stays so;
    in such a store, once a card is removed its word is no longer saved,
    so the word can be looked up and added again. *)
Theorem remove_frees_word :
  forall (i : string) (savedCards : list WordData),
    (forall c, In c (App.removeCard i savedCards) <->
               In c savedCards /\ id c <> i) /\
    Spec.subsequence (App.removeCard i savedCards) savedCards /\
    (Spec.uniqueWords savedCards ->
     Spec.uniqueWords (App.removeCard i savedCards) /\
     forall c, In c savedCards -> id c = i ->
               App.isWordSaved (word c) (App.removeCard i savedCards) = false).
Proof.
  intros i savedCards.
  assert (Hin : forall c, In c (App.removeCard i savedCards) <->
                          In c savedCards /\ id c <> i).
  { intros c. unfold App.removeCard. rewrite filter_In, negb_true_iff.
    rewrite String.eqb_neq. reflexivity. }
  split; [exact Hin|]. split; [apply filter_subsequence|].
  intros Hu. split; [apply NoDup_map_filter; exact Hu|].
  intros c Hc Hid.
  destruct (App.isWordSaved (word c) (App.removeCard i savedCards)) eqn:E;
    [|reflexivity].
  apply isWordSaved_spec in E. destruct E as [c' [Hc' Hs]].
  apply Hin in Hc'. destruct Hc' as [Hc' Hne].
  exfalso. apply Hne. rewrite <- Hid. f_equal.
  exact (NoDup_map_inj_on _ _ _ _ Hu c' c Hc' Hc Hs).
Qed.

Lemma remove_frees_word_witness :
  App.isWordSaved "cat" (App.removeCard "3" [Sample.big; Sample.cat]) = false.
Proof.
  apply (proj2 (proj2 (proj2 (remove_frees_word "3" [Sample.big; Sample.cat]))
                  ltac:(repeat constructor; cbn; intuition discriminate))
           Sample.cat).
  - right. left. reflexivity.
  - reflexivity.
Defined.

(* ================================================================= *)
(** * Further properties of the scheduler *)

(** Whatever the level, a rating schedules between one and thirty days
    ahead and gives a level of at most five. *)
Lemma srsOutcome_bounds :
  forall card success now,
    fst (App.srsOutcome card success now) <= 5 /\
    now + Spec.DAY <= snd (App.srsOutcome card success now)
      <= now + 30 * Spec.DAY.
Proof.
  intros card success now. unfold App.srsOutcome, Spec.DAY.
  destruct success; cbn [fst snd]; [|lia].
  change (JS.len App.SRS_INTERVALS) with 5.
  set (newLevel := Z.min (App.currentLevel card + 1) 5).
  split; [lia|].
  assert (H : 1 <= JS.or_num (JS.get App.SRS_INTERVALS (newLevel - 1)) 1 <= 30).
  { destruct (Z_le_gt_dec 1 newLevel) as [Hge | Hlt].
    - rewrite get_intervals by lia.
      assert (newLevel = 1 \/ newLevel = 2 \/ newLevel = 3 \/ newLevel = 4
              \/ newLevel = 5) as [-> | [-> | [-> | [-> | ->]]]] by lia;
        cbn; lia.
    - unfold JS.get. destruct (newLevel - 1 <? 0) eqn:E; [cbn; lia|].
      apply Z.ltb_ge in E. lia. }
  lia.
Qed.

Lemma isDue_with_srs_later :
  forall c l t now', 0 < t -> now' < t -> App.isDue now' (with_srs c l t) = false.
Proof.
  intros c l t now' Hpos Hlt. unfold App.isDue. cbn.
  apply orb_false_iff. split; [apply Z.eqb_neq | apply Z.leb_gt]; lia.
Qed.

(** X4. After a rating made at time [now] (not negative), and until one
    day has passed, the list of due cards is the list as it was without
    the cards that carry the rated id: the rated card is never due again
    at once, whether the answer was right or wrong, and no other card
    enters or leaves the list. *)
Theorem rated_card_not_due :
  forall (card : WordData) (success : bool) (now now' : Z)
         (savedCards : list WordData),
    0 <= now ->
    now' < now + 86400000 ->
    App.getDueCards now' (App.handleSRSRating card success now savedCards)
      = filter (fun c => negb (String.eqb (id c) (id card)))
               (App.getDueCards now' savedCards).
Proof.
  intros card success now now' savedCards Hnow Hlt.
  rewrite handleSRSRating_map.
  pose proof (srsOutcome_bounds card success now) as [_ [Hlo _]].
  unfold Spec.DAY in Hlo.
  set (l := fst (App.srsOutcome card success now)) in *.
  set (t := snd (App.srsOutcome card success now)) in *.
  unfold App.getDueCards.
  induction savedCards as [|c cards IH]; [reflexivity|].
  cbn [map filter]. rewrite IH.
  destruct (String.eqb (id c) (id card)) eqn:E.
  - rewrite isDue_with_srs_later by lia.
    destruct (App.isDue now' c); [cbn [filter]; rewrite E|]; reflexivity.
  - destruct (App.isDue now' c); [cbn [filter]; rewrite E|]; reflexivity.
Qed.

Lemma rated_card_not_due_witness :
  App.getDueCards 86400999
    (App.handleSRSRating Sample.big false 1000 [Sample.big; Sample.cat])
    = [Sample.cat].
Proof.
  exact (rated_card_not_due Sample.big false 1000 86400999
           [Sample.big; Sample.cat] ltac:(lia) ltac:(lia)).
Defined.

(** X5. Rating a card whose id is not in the store leaves the store as it
    is. *)
Theorem rating_unknown_card :
  forall (card : WordData) (success : bool) (now : Z)
         (savedCards : list WordData),
    (forall c, In c savedCards -> id c <> id card) ->
    App.handleSRSRating card success now savedCards = savedCards.
Proof.
  intros card success now savedCards H.
  rewrite handleSRSRating_map.
  induction savedCards as [|c cards IH]; [reflexivity|].
  cbn [map]. rewrite IH by (intros x Hx; apply H; right; exact Hx).
  assert (E : String.eqb (id c) (id card) = false)
    by (apply String.eqb_neq; apply H; left; reflexivity).
  rewrite E. reflexivity.
Qed.

Lemma rating_unknown_card_witness :
  App.handleSRSRating Sample.mister true 1000 [Sample.big; Sample.cat]
    = [Sample.big; Sample.cat].
Proof.
  apply rating_unknown_card.
  intros c [<- | [<- | []]]; discriminate.
Defined.

Lemma with_srs_twice :
  forall c l1 t1 l2 t2, with_srs (with_srs c l1 t1) l2 t2 = with_srs c l2 t2.
Proof. reflexivity. Qed.

(** X6. The level and the date written by a rating come from the card
    handed to [handleSRSRating], not from the store.  So of two ratings of
    the same id the later one alone counts: the store is what the second
    rating would have made of the store as it was before the first.  And
    ratings of cards with different ids can be made in either order. *)
Theorem ratings_compose :
  forall (card1 card2 : WordData) (s1 s2 : bool) (now1 now2 : Z)
         (savedCards : list WordData),
    (id card1 = id card2 ->
     App.handleSRSRating card2 s2 now2
       (App.handleSRSRating card1 s1 now1 savedCards)
     = App.handleSRSRating card2 s2 now2 savedCards) /\
    (id card1 <> id card2 ->
     App.handleSRSRating card2 s2 now2
       (App.handleSRSRating card1 s1 now1 savedCards)
     = App.handleSRSRating card1 s1 now1
         (App.handleSRSRating card2 s2 now2 savedCards)).
Proof.
  intros card1 card2 s1 s2 now1 now2 savedCards.
  rewrite !handleSRSRating_map, !map_map.
  split; intros Hid; apply map_ext; intros c.
  - rewrite Hid.
    destruct (String.eqb (id c) (id card2)) eqn:E.
    + cbn [with_srs id]. rewrite E. reflexivity.
    + rewrite E. reflexivity.
  - destruct (String.eqb (id c) (id card1)) eqn:E1;
      destruct (String.eqb (id c) (id card2)) eqn:E2;
      cbn [with_srs id]; rewrite ?E1, ?E2; try reflexivity.
    apply String.eqb_eq in E1. apply String.eqb_eq in E2. congruence.
Qed.

Lemma ratings_compose_witness :
  App.handleSRSRating Sample.large true 2000
    (App.handleSRSRating Sample.large true 1000 [Sample.large])
  = [with_srs Sample.large 3 604802000].
Proof.
  rewrite (proj1 (ratings_compose Sample.large Sample.large true true
                    1000 2000 [Sample.large]) eq_refl).
  reflexivity.
Defined.

(** X7. For levels between 0 and 5 a success never lowers the level, and
    raises it below 5; a higher level is never scheduled earlier than a
    lower one; and a success is always scheduled at least as late as a
    failure, which is scheduled one day ahead at level 1. *)
Theorem rating_monotone :
  forall (c1 c2 : WordData) (now : Z),
    0 <= App.currentLevel c1 <= App.currentLevel c2 ->
    App.currentLevel c2 <= 5 ->
    App.currentLevel c1 <= fst (App.srsOutcome c1 true now) <= 5 /\
    (App.currentLevel c1 < 5 ->
     fst (App.srsOutcome c1 true now) = App.currentLevel c1 + 1) /\
    fst (App.srsOutcome c1 true now) <= fst (App.srsOutcome c2 true now) /\
    snd (App.srsOutcome c1 true now) <= snd (App.srsOutcome c2 true now) /\
    snd (App.srsOutcome c1 false now) <= snd (App.srsOutcome c1 true now).
Proof.
  intros c1 c2 now H12 H5.
  rewrite !srsOutcome_success by lia. rewrite srsOutcome_failure.
  cbn [fst snd]. unfold Spec.DAY.
  set (L1 := App.currentLevel c1) in *. set (L2 := App.currentLevel c2) in *.
  assert (L1 = 0 \/ L1 = 1 \/ L1 = 2 \/ L1 = 3 \/ L1 = 4 \/ L1 = 5)
    as [-> | [-> | [-> | [-> | [-> | ->]]]]] by lia;
  assert (L2 = 0 \/ L2 = 1 \/ L2 = 2 \/ L2 = 3 \/ L2 = 4 \/ L2 = 5)
    as [-> | [-> | [-> | [-> | [-> | ->]]]]] by lia;
  cbn; lia.
Qed.

Lemma rating_monotone_witness :
  snd (App.srsOutcome Sample.big true 0)
    <= snd (App.srsOutcome Sample.large true 0).
Proof.
  apply (rating_monotone Sample.big Sample.large 0); cbn; lia.
Defined.

(** X8. A store whose levels all lie between 0 and 5 and whose review
    dates are all set keeps both properties under any rating of a card
    whose own level is not negative. *)
Theorem rating_keeps_invariant :
  forall (card : WordData) (success : bool) (now : Z)
         (savedCards : list WordData),
    0 <= App.currentLevel card ->
    (forall c, In c savedCards ->
               0 <= App.currentLevel c <= 5 /\ nextReview c <> None) ->
    forall c, In c (App.handleSRSRating card success now savedCards) ->
              0 <= App.currentLevel c <= 5 /\ nextReview c <> None.
Proof.
  intros card success now savedCards Hlevel Hinv c Hin.
  rewrite handleSRSRating_map in Hin. apply in_map_iff in Hin.
  destruct Hin as [c0 [Hc Hin0]].
  destruct (String.eqb (id c0) (id card)); [|subst c0; apply Hinv; exact Hin0].
  subst c. split; [|discriminate].
  pose proof (srsOutcome_bounds card success now) as [Hle _].
  assert (Hge : 1 <= fst (App.srsOutcome card success now)).
  { unfold App.srsOutcome. destruct success; cbn [fst]; [|lia].
    change (JS.len App.SRS_INTERVALS) with 5. lia. }
  unfold App.currentLevel. cbn [with_srs srsLevel JS.or_num].
  destruct (fst (App.srsOutcome card success now) =? 0) eqn:E; lia.
Qed.

Lemma rating_keeps_invariant_witness :
  0 <= App.currentLevel (with_srs Sample.mister 5 2592001000) <= 5.
Proof.
  apply (rating_keeps_invariant Sample.mister true 1000
           [Sample.big; Sample.mister]).
  - cbn. lia.
  - intros c [<- | [<- | []]]; cbn; (split; [lia | discriminate]).
  - right. left. reflexivity.
Defined.

(* ================================================================= *)
(** * Loading the store and creating cards *)

Lemma migrateCard_stored :
  forall now c,
    srsLevel c <> None -> nextReview c <> None ->
    App.migrateCard now (App.stored c) = c.
Proof.
  intros now [i w p m ms es sy an cr [l|] [t|]] Hl Ht; cbn in *;
    try contradiction.
  unfold App.migrateCard. cbn. rewrite map_map. cbn. rewrite map_id.
  reflexivity.
Qed.

Lemma migrateCard_defined :
  forall now card,
    srsLevel (App.migrateCard now card) <> None /\
    nextReview (App.migrateCard now card) <> None.
Proof.
  intros now card. cbn.
  destruct (App.stored_srsLevel card), (App.stored_nextReview card);
    split; discriminate.
Qed.

(** X9. The loader gives every card a level and a review date: the stored
    ones when they exist, level 0 and the time of loading otherwise; the
    number and the order of the cards are kept; and a card that had no
    review date is due at the time of loading and at any later time. *)
Theorem migrate_defaults :
  forall (now : Z) (parsedData : list App.StoredCard),
    map id (App.migrate now parsedData) = map App.stored_id parsedData /\
    (forall c, In c (App.migrate now parsedData) ->
               srsLevel c <> None /\ nextReview c <> None) /\
    (forall card, In card parsedData ->
       srsLevel (App.migrateCard now card) =
         Some (match App.stored_srsLevel card with
               | Some l => l
               | None => 0
               end) /\
       nextReview (App.migrateCard now card) =
         Some (match App.stored_nextReview card with
               | Some t => t
               | None => now
               end)) /\
    (forall card now', In card parsedData ->
       App.stored_nextReview card = None -> now <= now' ->
       In (App.migrateCard now card)
          (App.getDueCards now' (App.migrate now parsedData))).
Proof.
  intros now parsedData. unfold App.migrate.
  split; [rewrite map_map; reflexivity|]. split; [|split].
  - intros c Hin. apply in_map_iff in Hin. destruct Hin as [card [<- _]].
    apply migrateCard_defined.
  - intros card _. cbn.
    destruct (App.stored_srsLevel card), (App.stored_nextReview card);
      split; reflexivity.
  - intros card now' Hin Hnone Hle. unfold App.getDueCards.
    apply filter_In. split; [apply in_map; exact Hin|].
    unfold App.isDue. cbn. rewrite Hnone. cbn.
    apply orb_true_iff. right. apply Z.leb_le. exact Hle.
Qed.

Lemma migrate_defaults_witness :
  In (App.migrateCard 700 (App.stored Sample.cat))
     (App.getDueCards 700
        (App.migrate 700 [App.stored Sample.large; App.stored Sample.cat])).
Proof.
  apply (proj2 (proj2 (proj2 (migrate_defaults 700
           [App.stored Sample.large; App.stored Sample.cat])))
           (App.stored Sample.cat) 700).
  - right. left. reflexivity.
  - reflexivity.
  - lia.
Defined.

(** X10. Loading is stable.  A store that was loaded, saved and loaded
    again at a later time is the store of the first loading; and a saved
    store in which every card has a level and a review date is loaded back
    as it was. *)
Theorem migrate_round_trip :
  forall (now now' : Z) (parsedData : list App.StoredCard)
         (savedCards : list WordData),
    App.migrate now' (map App.stored (App.migrate now parsedData))
      = App.migrate now parsedData /\
    ((forall c, In c savedCards ->
                srsLevel c <> None /\ nextReview c <> None) ->
     App.migrate now (map App.stored savedCards) = savedCards).
Proof.
  intros now now' parsedData savedCards.
  assert (H : forall t cards,
             (forall c, In c cards ->
                        srsLevel c <> None /\ nextReview c <> None) ->
             App.migrate t (map App.stored cards) = cards).
  { intros t cards Hdef. unfold App.migrate. rewrite map_map.
    induction cards as [|c cards IH]; [reflexivity|].
    cbn [map]. destruct (Hdef c (or_introl eq_refl)) as [Hl Ht].
    rewrite (migrateCard_stored t c Hl Ht). f_equal.
    apply IH. intros x Hx. apply Hdef. right. exact Hx. }
  split; [|apply H].
  apply H. intros c Hin. unfold App.migrate in Hin.
  apply in_map_iff in Hin. destruct Hin as [card [<- _]].
  apply migrateCard_defined.
Qed.

Lemma migrate_round_trip_witness :
  App.migrate 5 (map App.stored [Sample.big; Sample.mister])
    = [Sample.big; Sample.mister].
Proof.
  apply (proj2 (migrate_round_trip 5 5 [] [Sample.big; Sample.mister])).
  intros c [<- | [<- | []]]; split; discriminate.
Defined.

(** X11. A card built from a lookup result is due at the time it was
    built and at any later time; when its word is not saved yet, adding
    it puts it at the head of the list of due cards. *)
Theorem new_card_is_due :
  forall (result : WordData) (uuid : string) (created now now' : Z)
         (savedCards : list WordData),
    now <= now' ->
    App.isDue now' (App.newCard result uuid created now) = true /\
    (App.isWordSaved (word result) savedCards = false ->
     App.getDueCards now'
       (App.addToFlashcards (App.newCard result uuid created now) savedCards)
     = App.newCard result uuid created now
         :: App.getDueCards now' savedCards).
Proof.
  intros result uuid created now now' savedCards Hle.
  assert (Hdue : App.isDue now' (App.newCard result uuid created now) = true).
  { unfold App.isDue. cbn. apply orb_true_iff. right.
    apply Z.leb_le. exact Hle. }
  split; [exact Hdue|].
  intros Hnew. rewrite addToFlashcards_cases. cbn [App.newCard word].
  rewrite Hnew. unfold App.getDueCards. cbn [filter].
  rewrite Hdue. reflexivity.
Qed.

Lemma new_card_is_due_witness :
  App.getDueCards 10 (App.addToFlashcards
                        (App.newCard Sample.large "77" 9 10) [Sample.mister])
    = [App.newCard Sample.large "77" 9 10].
Proof.
  apply (proj2 (new_card_is_due Sample.large "77" 9 10 10 [Sample.mister]
                  ltac:(lia))).
  reflexivity.
Defined.

(* ================================================================= *)
(** * Further properties of the study session *)

Section StudySession.

Context {Rand : Type} {RS : RandomSource Rand}.

(** X12. Starting a review never touches the store and does nothing at
    all when no card is due; otherwise the application enters the study
    mode with a queue that is exactly the list of due cards, in the order
    of the store, and is not empty.  A shuffle session gets a queue that
    is a rearrangement of the whole store. *)
Theorem session_queue :
  forall (now : Z) (v : App.View) (r : Rand),
    let review := App.startReviewSession now v in
    let shuffle := App.startRandomStudy v in
    App.savedCards review = App.savedCards v /\
    (App.dueCount now (App.savedCards v) = 0 -> review = v) /\
    (App.dueCount now (App.savedCards v) <> 0 ->
     App.mode review = App.STUDY /\
     App.isReviewSession review = true /\
     App.studySessionCards review <> [] /\
     studyQueue (fst (Session.initQueue (App.studySessionCards review)
                        (App.isReviewSession review) r Session.mounted))
       = App.getDueCards now (App.savedCards v)) /\
    Permutation (App.savedCards v)
      (studyQueue (fst (Session.initQueue (App.studySessionCards shuffle)
                          (App.isReviewSession shuffle) r Session.mounted))).
Proof.
  intros now v r review shuffle.
  unfold review, shuffle, App.startReviewSession, App.dueCount.
  destruct (JS.len (App.getDueCards now (App.savedCards v)) =? 0) eqn:E.
  - apply Z.eqb_eq in E. split; [reflexivity|]. split; [reflexivity|].
    split; [intros H; contradiction|].
    cbn. pose proof (sortRandom_perm _ (App.savedCards v) r) as Hp.
    destruct (sortRandom (App.savedCards v) r) as [queue r']. exact Hp.
  - apply Z.eqb_neq in E. split; [reflexivity|].
    split; [intros H; contradiction|]. split.
    + intros _. cbn. repeat split.
      intros Hnil. apply E. rewrite Hnil. reflexivity.
    + cbn. pose proof (sortRandom_perm _ (App.savedCards v) r) as Hp.
      destruct (sortRandom (App.savedCards v) r) as [queue r']. exact Hp.
Qed.

End StudySession.

Lemma session_queue_witness :
  App.startReviewSession 100
    {| App.mode := App.FLASHCARDS; App.savedCards := [Sample.large];
       App.studySessionCards := []; App.isReviewSession := false |}
  = {| App.mode := App.FLASHCARDS; App.savedCards := [Sample.large];
       App.studySessionCards := []; App.isReviewSession := false |}.
Proof.
  apply (proj1 (proj2 (session_queue (RS := Sample.still) 100
           {| App.mode := App.FLASHCARDS; App.savedCards := [Sample.large];
              App.studySessionCards := []; App.isReviewSession := false |}
           tt))).
  reflexivity.
Defined.

Lemma advance_cases :
  forall reviewMode s,
    Session.nextBlocked s = false ->
    Session.advance reviewMode s =
      if currentIndex s <? JS.len (studyQueue s) - 1
      then Session.set_currentIndex (currentIndex s + 1)
             (Session.set_isFlipped false s)
      else if reviewMode then s
      else Session.set_currentIndex 0 (Session.set_isFlipped false s).
Proof.
  intros reviewMode s Hb. unfold Session.advance, Session.handleNext.
  rewrite Hb.
  destruct (currentIndex s <? JS.len (studyQueue s) - 1); [reflexivity|].
  destruct reviewMode; reflexivity.
Qed.

Lemma retreat_cases :
  forall s,
    Session.retreat s =
      if 0 <? currentIndex s
      then Session.set_currentIndex (currentIndex s - 1)
             (Session.set_isFlipped false s)
      else s.
Proof.
  intros s. unfold Session.retreat, Session.handlePrev.
  destruct (0 <? currentIndex s); reflexivity.
Qed.

Lemma advance_flashcard :
  forall reviewMode s,
    studyMode s = flashcard ->
    studyMode (Session.advance reviewMode s) = flashcard /\
    studyQueue (Session.advance reviewMode s) = studyQueue s /\
    (currentIndex s < JS.len (studyQueue s) - 1 ->
     currentIndex (Session.advance reviewMode s) = currentIndex s + 1).
Proof.
  intros reviewMode s Hm.
  assert (Hb : Session.nextBlocked s = false)
    by (unfold Session.nextBlocked; rewrite Hm; reflexivity).
  rewrite (advance_cases _ _ Hb).
  destruct (currentIndex s <? JS.len (studyQueue s) - 1) eqn:E.
  - cbn. repeat split. exact Hm.
  - apply Z.ltb_ge in E. destruct reviewMode; cbn; repeat split;
      try exact Hm; intros; lia.
Qed.

Lemma iter_advance :
  forall reviewMode (k : nat) s,
    studyMode s = flashcard ->
    currentIndex s + Z.of_nat k <= JS.len (studyQueue s) - 1 ->
    studyMode (Nat.iter k (Session.advance reviewMode) s) = flashcard /\
    studyQueue (Nat.iter k (Session.advance reviewMode) s) = studyQueue s /\
    currentIndex (Nat.iter k (Session.advance reviewMode) s)
      = currentIndex s + Z.of_nat k.
Proof.
  intros reviewMode k. induction k as [|k IH]; intros s Hm Hk.
  - cbn. repeat split; [exact Hm | lia].
  - destruct (IH s Hm ltac:(lia)) as [Hm' [Hq' Hi']].
    rewrite Nat.iter_succ.
    destruct (advance_flashcard reviewMode _ Hm') as [Hm2 [Hq2 Hi2]].
    split; [exact Hm2|]. split; [congruence|].
    rewrite Hi2 by (rewrite Hq', Hi'; lia). lia.
Qed.

(** X14. In flashcard mode a session over a queue of [n + 1] cards that
    starts on the first card reaches card [k] after [k] presses of Next,
    for every [k] up to [n], the queue being the same all along.  In
    review mode each of the first [n] presses starts the timer that moves
    on, and the press on the last card calls [onExit] and changes nothing;
    in shuffle mode the press on the last card leads back to the first. *)
Theorem session_visits_every_card :
  forall (s : Study) (n : nat),
    studyMode s = flashcard ->
    currentIndex s = 0 ->
    JS.len (studyQueue s) = Z.of_nat (S n) ->
    (forall reviewMode k, (k <= n)%nat ->
       currentIndex (Nat.iter k (Session.advance reviewMode) s) = Z.of_nat k /\
       studyQueue (Nat.iter k (Session.advance reviewMode) s) = studyQueue s) /\
    (forall k, (k < n)%nat ->
       snd (Session.handleNext true (Nat.iter k (Session.advance true) s))
         = [SetTimeout Increment]) /\
    Session.handleNext true (Nat.iter n (Session.advance true) s)
      = (Nat.iter n (Session.advance true) s, [OnExit]) /\
    currentIndex (Nat.iter (S n) (Session.advance false) s) = 0.
Proof.
  intros s n Hm H0 Hlen.
  assert (Hk : forall reviewMode k, (k <= n)%nat ->
            studyMode (Nat.iter k (Session.advance reviewMode) s) = flashcard /\
            studyQueue (Nat.iter k (Session.advance reviewMode) s)
              = studyQueue s /\
            currentIndex (Nat.iter k (Session.advance reviewMode) s)
              = Z.of_nat k).
  { intros reviewMode k Hle.
    destruct (iter_advance reviewMode k s Hm ltac:(lia)) as [A [B C]].
    repeat split; [exact A | exact B | lia]. }
  split; [|split; [|split]].
  - intros reviewMode k Hle. destruct (Hk reviewMode k Hle) as [_ [B C]].
    split; assumption.
  - intros k Hlt. destruct (Hk true k ltac:(lia)) as [A [B C]].
    unfold Session.handleNext, Session.nextBlocked. rewrite A, B, C.
    destruct (Z.of_nat k <? JS.len (studyQueue s) - 1) eqn:E; [reflexivity|].
    apply Z.ltb_ge in E. lia.
  - destruct (Hk true n (le_n n)) as [A [B C]].
    unfold Session.handleNext, Session.nextBlocked. rewrite A, B, C.
    destruct (Z.of_nat n <? JS.len (studyQueue s) - 1) eqn:E; [|reflexivity].
    apply Z.ltb_lt in E. lia.
  - destruct (Hk false n (le_n n)) as [A [B C]].
    rewrite Nat.iter_succ.
    assert (Hb : Session.nextBlocked
                   (Nat.iter n (Session.advance false) s) = false)
      by (unfold Session.nextBlocked; rewrite A; reflexivity).
    rewrite (advance_cases _ _ Hb), B, C.
    destruct (Z.of_nat n <? JS.len (studyQueue s) - 1) eqn:E; [|reflexivity].
    apply Z.ltb_lt in E. lia.
Qed.

Lemma session_visits_every_card_witness :
  Session.handleNext true
    (Nat.iter 2 (Session.advance true)
       {| currentIndex := 0; isFlipped := false;
          studyQueue := [Sample.big; Sample.cat; Sample.large];
          studyMode := flashcard; quizState := None |})
  = (Nat.iter 2 (Session.advance true)
       {| currentIndex := 0; isFlipped := false;
          studyQueue := [Sample.big; Sample.cat; Sample.large];
          studyMode := flashcard; quizState := None |}, [OnExit]).
Proof.
  apply (proj1 (proj2 (proj2 (session_visits_every_card
           {| currentIndex := 0; isFlipped := false;
              studyQueue := [Sample.big; Sample.cat; Sample.large];
              studyMode := flashcard; quizState := None |} 2
           eq_refl eq_refl eq_refl)))).
Defined.

Lemma get_in_range :
  forall (A : Type) (l : list A) (i : Z),
    0 <= i < JS.len l -> exists x, JS.get l i = Some x /\ In x l.
Proof.
  intros A l i H. unfold JS.get, JS.len in *.
  destruct (i <? 0) eqn:E; [apply Z.ltb_lt in E; lia|].
  destruct (nth_error l (Z.to_nat i)) as [x|] eqn:En.
  - exists x. split; [reflexivity|]. eapply nth_error_In. exact En.
  - apply nth_error_None in En. lia.
Qed.

Lemma get_out_of_range :
  forall (A : Type) (l : list A) (i : Z),
    ~ (0 <= i < JS.len l) -> JS.get l i = None.
Proof.
  intros A l i H. unfold JS.get, JS.len in *.
  destruct (i <? 0) eqn:E; [reflexivity|].
  apply Z.ltb_ge in E. apply nth_error_None. lia.
Qed.

(** X15. A rating needs a current card.  When the position does not point
    into the queue (an empty queue above all) or no [onRate] was given,
    [handleRating] changes nothing and calls nothing.  Otherwise its first
    call is [onRate] with the card at the position and the verdict it was
    given. *)
Theorem rating_needs_current_card :
  forall (onRate reviewMode success : bool) (s : Study),
    (~ Session.inQueue s \/ onRate = false ->
     Session.handleRating onRate reviewMode success s = (s, [])) /\
    (Session.inQueue s ->
     exists card,
       nth_error (studyQueue s) (Z.to_nat (currentIndex s)) = Some card /\
       Session.handleRating true reviewMode success s
         = (fst (Session.handleNext reviewMode s),
            OnRate card success :: snd (Session.handleNext reviewMode s))).
Proof.
  intros onRate reviewMode success s. unfold Session.handleRating.
  split.
  - intros [Hout | Hno].
    + unfold Session.currentCard. unfold Session.inQueue in Hout.
      rewrite (get_out_of_range _ _ _ Hout). reflexivity.
    + rewrite Hno. destruct (Session.currentCard s); reflexivity.
  - intros Hin. unfold Session.inQueue in Hin.
    destruct (get_in_range _ _ _ Hin) as [card [Hget _]].
    exists card. unfold Session.currentCard. rewrite Hget. split.
    + unfold JS.get in Hget.
      destruct (currentIndex s <? 0); [discriminate | exact Hget].
    + destruct (Session.handleNext reviewMode s). reflexivity.
Qed.

Lemma rating_needs_current_card_witness :
  Session.handleRating true true true Session.mounted
    = (Session.mounted, []).
Proof.
  apply (proj1 (rating_needs_current_card true true true Session.mounted)).
  left. unfold Session.inQueue. cbn. lia.
Defined.



(** X17. One round of the quiz.  On an unsubmitted question about the
    card at the position, submitting an answer and then pressing Enter
    calls [onRate] for that card, with success exactly when the answer
    equals the correct answer once both are trimmed and lower-cased, and
    then acts as Next does, which is no longer held back: it starts the
    timer to the next card or to the first, or calls [onExit]. *)
Theorem quiz_round :
  forall (reviewMode : bool) (inputValue : option string) (answer : string)
         (s : Study) (q : QuizState) (card : WordData),
    studyMode s = quiz ->
    quizState s = Some q ->
    isSubmitted q = false ->
    Session.currentCard s = Some card ->
    let s1 := fst (Session.submitQuizAnswer answer s) in
    exists ok next,
      (ok = true <-> Spec.answersMatch answer (correctAnswer q)) /\
      Session.nextBlocked s1 = false /\
      Session.handleKeyDown true reviewMode inputValue Session.Enter s1
        = (fst (Session.handleNext reviewMode s1),
           [Session.Emit (OnRate card ok); Session.Emit next]) /\
      (next = SetTimeout Increment \/ next = SetTimeout ToFirst \/
       next = OnExit).
Proof.
  intros reviewMode inputValue answer s q card Hm Hq Hs Hc s1.
  unfold s1, Session.submitQuizAnswer. rewrite Hq, Hs. cbn [fst].
  set (ok := Session.gradeAnswer answer (correctAnswer q)).
  set (s' := Session.set_quizState (Some (Session.submitted answer ok q)) s).
  assert (Hb : Session.nextBlocked s' = false)
    by (unfold Session.nextBlocked; cbn; rewrite Hm; reflexivity).
  assert (Hnext : exists next,
             snd (Session.handleNext reviewMode s') = [next] /\
             (next = SetTimeout Increment \/ next = SetTimeout ToFirst \/
              next = OnExit)).
  { unfold Session.handleNext. rewrite Hb.
    destruct (currentIndex s' <? JS.len (studyQueue s') - 1);
      [eexists; split; [reflexivity | tauto]|].
    destruct reviewMode; eexists; (split; [reflexivity | tauto]). }
  destruct Hnext as [next [Hsnd Hkind]].
  exists ok, next. split; [apply gradeAnswer_spec|].
  split; [exact Hb|]. split; [|exact Hkind].
  unfold Session.handleKeyDown, Session.keyInMode, Session.handleRating.
  cbn [studyMode quizState Session.set_quizState s' isSubmitted
       Session.submitted].
  rewrite Hm.
  change (Session.currentCard s') with (Session.currentCard s). rewrite Hc.
  cbn [Session.isCorrectOrFalse isCorrect Session.submitted].
  destruct (Session.handleNext reviewMode s') as [s2 effs].
  cbn [fst snd] in *. subst effs. reflexivity.
Qed.

Lemma quiz_round_witness :
  exists next,
    Session.handleKeyDown true true None Session.Enter
      (fst (Session.submitQuizAnswer " Big"
              {| currentIndex := 0; isFlipped := false;
                 studyQueue := [Sample.big; Sample.cat]; studyMode := quiz;
                 quizState := Some (Quiz.newQuiz SELECT_WORD_VI_TO_EN "to"
                                      "big" None) |}))
    = (fst (Session.handleNext true
              (fst (Session.submitQuizAnswer " Big"
                 {| currentIndex := 0; isFlipped := false;
                    studyQueue := [Sample.big; Sample.cat]; studyMode := quiz;
                    quizState := Some (Quiz.newQuiz SELECT_WORD_VI_TO_EN "to"
                                         "big" None) |}))),
       [Session.Emit (OnRate Sample.big true); Session.Emit next]).
Proof.
  destruct (quiz_round true None " Big"
              {| currentIndex := 0; isFlipped := false;
                 studyQueue := [Sample.big; Sample.cat]; studyMode := quiz;
                 quizState := Some (Quiz.newQuiz SELECT_WORD_VI_TO_EN "to"
                                      "big" None) |}
              (Quiz.newQuiz SELECT_WORD_VI_TO_EN "to" "big" None)
              Sample.big eq_refl eq_refl eq_refl eq_refl)
    as [ok [next [Hok [_ [Hkey _]]]]].
  exists next.
  assert (Hok' : ok = true) by (apply Hok; reflexivity).
  rewrite Hok' in Hkey. exact Hkey.
Defined.

(* ================================================================= *)
(** * Further properties of the quiz generator *)

Section QuizMore.

Context {Rand : Type} {RS : RandomSource Rand}.

(** X18. The fill-in-the-blank question is drawn only for a card that has
    an example, and then reads one of the card's examples, never a missing
    one.  For a plain word (letters, digits or underscores at both ends,
    no pattern syntax inside) the question is that example's sentence with
    every whole-word occurrence of the word, ignoring case, replaced by
    the blank; the correct answer is the word and there are no options. *)
Theorem fill_in_blank_plain_word :
  forall (card : WordData) (allCards : list WordData) (r : Rand),
    fst (Quiz.chooseType card r) = FILL_IN_BLANK ->
    examples card <> [] /\
    fst (Quiz.generateQuiz card allCards r) <> TypeError /\
    (Spec.plainWord (word card) = true ->
     exists ex,
       In ex (examples card) /\
       fst (Quiz.generateQuiz card allCards r)
         = Returns (Quiz.newQuiz FILL_IN_BLANK
                      (Spec.blankWholeWords (word card) (sentence ex))
                      (word card) None)).
Proof.
  intros card allCards r Ht.
  pose proof (chooseType_in card r) as Hin. rewrite Ht in Hin.
  assert (Hex : 0 < JS.len (examples card)).
  { unfold Quiz.quizTypes in Hin.
    destruct (0 <? JS.len (examples card)) eqn:E; [apply Z.ltb_lt; exact E|].
    cbn in Hin. destruct Hin as [H | [H | []]]; discriminate. }
  split; [intros Hnil; rewrite Hnil in Hex; cbn in Hex; lia|].
  unfold Quiz.generateQuiz.
  destruct (Quiz.chooseType card r) as [t r1]. cbn [fst] in Ht. subst t.
  cbn [Quiz.buildQuiz].
  pose proof (randomIndex_range (JS.len (examples card)) r1 Hex) as Hi.
  destruct (Quiz.randomIndex (JS.len (examples card)) r1) as [i r2].
  cbn [fst] in Hi.
  destruct (get_in_range _ _ _ Hi) as [ex [Hget Hin']]. rewrite Hget.
  split.
  - destruct (RegExp.blankOut (word card) (sentence ex)); discriminate.
  - intros Hplain. exists ex. split; [exact Hin'|].
    rewrite (blankOut_plain_word _ _ Hplain). reflexivity.
Qed.

(** X19. With a pool that holds no other card (the default pool is empty)
    a multiple-choice question has nothing to choose from: its four
    options are the correct answer and three times ["N/A"], in some
    order. *)
Theorem options_without_other_cards :
  forall (card : WordData) (allCards : list WordData) (r : Rand),
    fst (Quiz.chooseType card r) <> FILL_IN_BLANK ->
    meanings card <> [] ->
    (forall c, In c allCards -> id c = id card) ->
    exists q opts,
      fst (Quiz.generateQuiz card allCards r) = Returns q /\
      options q = Some opts /\
      Permutation [correctAnswer q; Quiz.NA; Quiz.NA; Quiz.NA] opts.
Proof.
  intros card allCards r Ht Hcard Hpool.
  unfold Quiz.generateQuiz.
  destruct (Quiz.chooseType card r) as [t r1]. cbn [fst] in Ht.
  destruct (buildQuiz_select t card allCards r1 Ht Hcard)
    as [q [ds [opts [Hq [_ [_ [_ [_ [_ [Hopts [Hlen [_ Hp]]]]]]]]]]]].
  { intros _ c Hc Hne. exfalso. apply Hne. apply Hpool. exact Hc. }
  assert (Hnil : filter (fun c => negb (String.eqb (id c) (id card))) allCards
                 = []).
  { clear -Hpool. induction allCards as [|c l IH]; [reflexivity|].
    cbn [filter]. rewrite (Hpool c (or_introl eq_refl)), String.eqb_refl.
    cbn [negb]. apply IH. intros x Hx. apply Hpool. right. exact Hx. }
  rewrite Hnil in Hlen. cbn in Hlen.
  destruct ds as [|d ds]; [|discriminate].
  exists q, opts. split; [exact Hq|]. split; [exact Hopts | exact Hp].
Qed.

End QuizMore.

Lemma fill_in_blank_plain_word_witness :
  exists ex,
    In ex (examples Sample.cat) /\
    fst (Quiz.generateQuiz (RS := Sample.late) Sample.cat [] tt)
      = Returns (Quiz.newQuiz FILL_IN_BLANK
                   (Spec.blankWholeWords "cat" (sentence ex)) "cat" None).
Proof.
  apply (proj2 (proj2 (fill_in_blank_plain_word (RS := Sample.late)
                         Sample.cat [] tt eq_refl))).
  reflexivity.
Defined.

Lemma options_without_other_cards_witness :
  exists q opts,
    fst (Quiz.generateQuiz (RS := Sample.still) Sample.big [] tt)
      = Returns q /\
    options q = Some opts /\
    Permutation [correctAnswer q; Quiz.NA; Quiz.NA; Quiz.NA] opts.
Proof.
  apply (options_without_other_cards (RS := Sample.still) Sample.big [] tt).
  - discriminate.
  - discriminate.
  - intros c [].
Defined.

(* ================================================================= *)
(** * The edit distance of the similarity scorer *)

Lemma lev_nil_r : forall a, Spec.lev a [] = JS.len a.
Proof. intros [|x a]; reflexivity. Qed.

Lemma lev_cons_cons :
  forall x a y b,
    Spec.lev (x :: a) (y :: b) =
      if Ascii.eqb x y then Spec.lev a b
      else Z.min (Z.min (Spec.lev a b) (Spec.lev (x :: a) b))
                 (Spec.lev a (y :: b)) + 1.
Proof. reflexivity. Qed.

Lemma len_cons : forall (A : Type) (x : A) l, JS.len (x :: l) = JS.len l + 1.
Proof. intros. unfold JS.len. cbn [List.length]. lia. Qed.

Lemma len_nonneg : forall (A : Type) (l : list A), 0 <= JS.len l.
Proof. intros. unfold JS.len. lia. Qed.

Lemma ascii_eqb_sym : forall x y, Ascii.eqb x y = Ascii.eqb y x.
Proof.
  intros x y. destruct (Ascii.eqb x y) eqn:E.
  - apply Ascii.eqb_eq in E. subst. symmetry. apply Ascii.eqb_refl.
  - symmetry. apply Ascii.eqb_neq. apply Ascii.eqb_neq in E. congruence.
Qed.

Lemma lev_sym : forall a b, Spec.lev a b = Spec.lev b a.
Proof.
  induction a as [|x a IHa]; intros b.
  - rewrite lev_nil_r. reflexivity.
  - induction b as [|y b IHb].
    + rewrite lev_nil_r. reflexivity.
    + rewrite !lev_cons_cons, (ascii_eqb_sym y x).
      rewrite (IHa b), (IHa (y :: b)), IHb.
      destruct (Ascii.eqb x y); [reflexivity | lia].
Qed.

Lemma lev_refl : forall a, Spec.lev a a = 0.
Proof.
  induction a as [|x a IH]; [reflexivity|].
  rewrite lev_cons_cons, Ascii.eqb_refl. exact IH.
Qed.

Lemma lev_bounds :
  forall a b, 0 <= Spec.lev a b <= Z.max (JS.len a) (JS.len b).
Proof.
  induction a as [|x a IHa]; intros b.
  - cbn [Spec.lev]. pose proof (len_nonneg _ b). cbn. lia.
  - induction b as [|y b IHb].
    + rewrite lev_nil_r. pose proof (len_nonneg _ (x :: a)). cbn. lia.
    + rewrite lev_cons_cons. rewrite !len_cons in *.
      pose proof (IHa b). pose proof (IHa (y :: b)).
      rewrite len_cons in *.
      destruct (Ascii.eqb x y); lia.
Qed.

(** The usual recurrence gives the same distance. *)
Lemma wagnerFischer_nil_r : forall a, Spec.wagnerFischer a [] = JS.len a.
Proof. intros [|x a]; reflexivity. Qed.

Lemma wagnerFischer_cons_cons :
  forall x a y b,
    Spec.wagnerFischer (x :: a) (y :: b) =
      Z.min (Z.min (Spec.wagnerFischer a b
                    + (if Ascii.eqb x y then 0 else 1))
                   (Spec.wagnerFischer (x :: a) b + 1))
            (Spec.wagnerFischer a (y :: b) + 1).
Proof. reflexivity. Qed.

Lemma wagnerFischer_drop_r :
  forall a y b, Spec.wagnerFischer a (y :: b) <= Spec.wagnerFischer a b + 1.
Proof.
  intros [|x a] y b.
  - cbn [Spec.wagnerFischer]. rewrite len_cons. lia.
  - rewrite wagnerFischer_cons_cons. lia.
Qed.

Lemma wagnerFischer_drop_l :
  forall x a b, Spec.wagnerFischer (x :: a) b <= Spec.wagnerFischer a b + 1.
Proof.
  intros x a [|y b].
  - rewrite !wagnerFischer_nil_r, len_cons. lia.
  - rewrite wagnerFischer_cons_cons. lia.
Qed.

Lemma wagnerFischer_add_l :
  forall x a b, Spec.wagnerFischer a b <= Spec.wagnerFischer (x :: a) b + 1.
Proof.
  intros x a b. induction b as [|y b IH].
  - rewrite !wagnerFischer_nil_r, len_cons. lia.
  - rewrite wagnerFischer_cons_cons.
    pose proof (wagnerFischer_drop_r a y b).
    destruct (Ascii.eqb x y); lia.
Qed.

Lemma wagnerFischer_add_r :
  forall a y b, Spec.wagnerFischer a b <= Spec.wagnerFischer a (y :: b) + 1.
Proof.
  intros a y b. induction a as [|x a IH].
  - cbn [Spec.wagnerFischer]. rewrite len_cons. lia.
  - rewrite wagnerFischer_cons_cons.
    pose proof (wagnerFischer_drop_l x a b).
    destruct (Ascii.eqb x y); lia.
Qed.

Lemma lev_wagnerFischer :
  forall a b, Spec.lev a b = Spec.wagnerFischer a b.
Proof.
  induction a as [|x a IHa]; intros b; [reflexivity|].
  induction b as [|y b IHb]; [reflexivity|].
  rewrite lev_cons_cons, wagnerFischer_cons_cons.
  rewrite (IHa b), (IHa (y :: b)), IHb.
  pose proof (wagnerFischer_add_l x a b).
  pose proof (wagnerFischer_add_r a y b).
  destruct (Ascii.eqb x y); lia.
Qed.

(** Reading and writing the array of costs. *)
Lemma string_get_list :
  forall s k, String.get k s = nth_error (list_ascii_of_string s) k.
Proof.
  induction s as [|c s IH]; intros [|k]; cbn; try reflexivity. apply IH.
Qed.

Lemma string_length_list :
  forall s, String.length s = List.length (list_ascii_of_string s).
Proof. induction s as [|c s IH]; cbn; [reflexivity | f_equal; exact IH]. Qed.

Lemma charAt_nat :
  forall s k,
    Similarity.charAt s (Z.of_nat k) = nth_error (list_ascii_of_string s) k.
Proof.
  intros s k. unfold Similarity.charAt.
  destruct (Z.of_nat k <? 0) eqn:E; [apply Z.ltb_lt in E; lia|].
  rewrite Nat2Z.id. apply string_get_list.
Qed.

Lemma get_nat :
  forall (A : Type) (l : list A) k, JS.get l (Z.of_nat k) = nth_error l k.
Proof.
  intros A l k. unfold JS.get.
  destruct (Z.of_nat k <? 0) eqn:E; [apply Z.ltb_lt in E; lia|].
  rewrite Nat2Z.id. reflexivity.
Qed.

Lemma set_nat_middle :
  forall (A : Type) (done : list A) x rest v,
    JS.set_nat (done ++ x :: rest) (List.length done) v = done ++ v :: rest.
Proof.
  intros A done. induction done as [|d done IH]; intros x rest v;
    [reflexivity|].
  cbn. f_equal. apply IH.
Qed.

Lemma set_nat_end :
  forall (A : Type) (l : list A) v, JS.set_nat l (List.length l) v = l ++ [v].
Proof.
  intros A l v. induction l as [|d l IH]; [reflexivity|].
  cbn. f_equal. exact IH.
Qed.

Lemma nth_error_middle :
  forall (A : Type) (done : list A) x rest,
    nth_error (done ++ x :: rest) (List.length done) = Some x.
Proof.
  intros A done. induction done as [|d done IH]; intros; [reflexivity|].
  cbn. apply IH.
Qed.

Lemma skipn_cons_nth :
  forall (A : Type) (l : list A) k y t,
    skipn k l = y :: t -> nth_error l k = Some y /\ skipn (S k) l = t.
Proof.
  intros A l. induction l as [|x l IH]; intros k y t H.
  - destruct k; discriminate.
  - destruct k as [|k].
    + cbn in H. injection H as -> ->. split; reflexivity.
    + cbn [skipn] in H. destruct (IH k y t H) as [H1 H2].
      split; [exact H1 | exact H2].
Qed.

(** The first row: the inner loop at [i = 0] writes [0, 1, ..., n]. *)
Lemma inner_row0 :
  forall s1 s2 cnt l lv,
    fold_left (Similarity.inner_step s1 s2 0)
              (map Z.of_nat (seq (List.length l) cnt)) (Some (l, lv))
    = Some (l ++ map Z.of_nat (seq (List.length l) cnt), lv).
Proof.
  intros s1 s2 cnt. induction cnt as [|cnt IH]; intros l lv.
  - cbn. rewrite app_nil_r. reflexivity.
  - cbn [seq map fold_left].
    assert (Hstep : Similarity.inner_step s1 s2 0 (Some (l, lv))
                      (Z.of_nat (List.length l))
                    = Some (l ++ [Z.of_nat (List.length l)], lv)).
    { cbn. unfold JS.set. rewrite Nat2Z.id, set_nat_end. reflexivity. }
    rewrite Hstep.
    replace (S (List.length l))
      with (List.length (l ++ [Z.of_nat (List.length l)]))
      by (rewrite length_app; cbn; lia).
    rewrite IH, <- app_assoc. reflexivity.
Qed.

(** One turn of the inner loop on a later row. *)
Lemma inner_step_at :
  forall s1 s2 i x y done diag left up ups,
    0 < i ->
    Similarity.charAt s1 (i - 1) = Some x ->
    nth_error (list_ascii_of_string s2) (List.length done) = Some y ->
    Similarity.inner_step s1 s2 i (Some (done ++ diag :: up :: ups, left))
                          (Z.of_nat (S (List.length done)))
    = Some (done ++ left :: up :: ups,
            if Ascii.eqb x y then diag
            else Z.min (Z.min diag left) up + 1).
Proof.
  intros s1 s2 i x y done diag left up ups Hi Hx Hy.
  unfold Similarity.inner_step.
  destruct (i =? 0) eqn:E0; [apply Z.eqb_eq in E0; lia|].
  destruct (0 <? Z.of_nat (S (List.length done))) eqn:Ej;
    [|apply Z.ltb_ge in Ej; lia].
  replace (Z.of_nat (S (List.length done)) - 1)
    with (Z.of_nat (List.length done)) by lia.
  rewrite get_nat, nth_error_middle, Hx, charAt_nat, Hy.
  cbn [Similarity.same_char].
  rewrite get_nat.
  replace (nth_error (done ++ diag :: up :: ups) (S (List.length done)))
    with (Some up).
  2:{ symmetry.
      replace (done ++ diag :: up :: ups) with ((done ++ [diag]) ++ up :: ups)
        by (rewrite <- app_assoc; reflexivity).
      replace (S (List.length done)) with (List.length (done ++ [diag]))
        by (rewrite length_app; cbn; lia).
      apply nth_error_middle. }
  unfold JS.set. rewrite Nat2Z.id, set_nat_middle.
  destruct (Ascii.eqb x y); reflexivity.
Qed.

(** The inner loop on a later row, from any column on. *)
Lemma inner_row :
  forall s1 s2 i x,
    0 < i ->
    Similarity.charAt s1 (i - 1) = Some x ->
    forall bs done diag left ups,
      skipn (List.length done) (list_ascii_of_string s2) = bs ->
      List.length ups = List.length bs ->
      exists costs' lv,
        fold_left (Similarity.inner_step s1 s2 i)
                  (map Z.of_nat (seq (S (List.length done)) (List.length bs)))
                  (Some (done ++ diag :: ups, left))
        = Some (costs', lv) /\
        JS.set_nat costs' (List.length done + List.length bs) lv
        = done ++ left :: Spec.rowStep x bs diag left ups.
Proof.
  intros s1 s2 i x Hi Hx. induction bs as [|y bs IH];
    intros done diag left ups Hskip Hlen.
  - destruct ups; [|discriminate]. cbn [List.length seq map fold_left].
    exists (done ++ [diag]), left. split; [reflexivity|].
    rewrite Nat.add_0_r, set_nat_middle. reflexivity.
  - destruct ups as [|up ups]; [discriminate|].
    destruct (skipn_cons_nth _ _ _ _ _ Hskip) as [Hy Hskip'].
    cbn [List.length seq map fold_left].
    rewrite (inner_step_at s1 s2 i x y done diag left up ups Hi Hx Hy).
    set (v := if Ascii.eqb x y then diag
              else Z.min (Z.min diag left) up + 1).
    destruct (IH (done ++ [left]) up v ups) as [costs' [lv [Hfold Hset]]].
    + rewrite length_app. cbn [List.length].
      rewrite Nat.add_1_r. exact Hskip'.
    + cbn [List.length] in Hlen. lia.
    + rewrite length_app in Hfold, Hset. cbn [List.length] in Hfold, Hset.
      rewrite Nat.add_1_r in Hfold. rewrite <- app_assoc in Hfold, Hset.
      cbn [app] in Hfold, Hset.
      exists costs', lv. split; [exact Hfold|].
      replace (List.length done + S (List.length bs))%nat
        with (List.length done + 1 + List.length bs)%nat by lia.
      rewrite Hset. reflexivity.
Qed.

(** The next row of the table is what [rowStep] computes from the row
    above. *)
Lemma rowStep_lev :
  forall x ra bs rb,
    Spec.rowStep x bs (Spec.lev ra rb) (Spec.lev (x :: ra) rb)
                 (map (Spec.lev ra) (Spec.rprefs bs rb))
    = map (Spec.lev (x :: ra)) (Spec.rprefs bs rb).
Proof.
  intros x ra bs. induction bs as [|y bs IH]; intros rb; [reflexivity|].
  cbn [Spec.rprefs map Spec.rowStep].
  rewrite <- (lev_cons_cons x ra y rb). f_equal. apply IH.
Qed.

Lemma rprefs_length :
  forall bs rb, List.length (Spec.rprefs bs rb) = List.length bs.
Proof.
  induction bs as [|y bs IH]; intros rb; [reflexivity|].
  cbn. f_equal. apply IH.
Qed.

Lemma rprefs_lens :
  forall bs rb,
    map JS.len (Spec.rprefs bs rb)
    = map Z.of_nat (seq (S (List.length rb)) (List.length bs)).
Proof.
  induction bs as [|y bs IH]; intros rb; [reflexivity|].
  cbn [Spec.rprefs map List.length seq]. f_equal.
  apply (IH (y :: rb)).
Qed.

Lemma rprefs_last :
  forall bs rb,
    nth_error (rb :: Spec.rprefs bs rb) (List.length bs) = Some (rev bs ++ rb).
Proof.
  induction bs as [|y bs IH]; intros rb; [reflexivity|].
  cbn [Spec.rprefs List.length nth_error rev]. rewrite (IH (y :: rb)).
  rewrite <- app_assoc. reflexivity.
Qed.

Lemma upto_strlen :
  forall s,
    Similarity.upto (JS.strlen s)
    = 0 :: map Z.of_nat (seq 1 (List.length (list_ascii_of_string s))).
Proof.
  intros s. unfold Similarity.upto, JS.strlen.
  rewrite Nat2Z.id, string_length_list. reflexivity.
Qed.

(** The outer loop at [i = 0] builds the first row of the table. *)
Lemma outer_step_row0 :
  forall s1 s2,
    Similarity.outer_step s1 s2 (Some []) 0
    = Some (Spec.row [] (list_ascii_of_string s2)).
Proof.
  intros s1 s2. unfold Similarity.outer_step. rewrite upto_strlen.
  set (n := List.length (list_ascii_of_string s2)).
  change (0 :: map Z.of_nat (seq 1 n))
    with (map Z.of_nat (seq (@List.length Z []) (S n))).
  rewrite (inner_row0 s1 s2 (S n) [] 0).
  change (0 <? 0) with false. cbn [app List.length].
  unfold Spec.row. cbn [map].
  rewrite (map_ext (Spec.lev []) JS.len) by reflexivity.
  rewrite rprefs_lens. reflexivity.
Qed.

(** The outer loop on a later row: from the row of a prefix to the row of
    the prefix with one more character. *)
Lemma outer_step_row :
  forall s1 s2 ra x,
    Similarity.charAt s1 (Z.of_nat (List.length ra)) = Some x ->
    Similarity.outer_step s1 s2
      (Some (Spec.row ra (list_ascii_of_string s2)))
      (Z.of_nat (S (List.length ra)))
    = Some (Spec.row (x :: ra) (list_ascii_of_string s2)).
Proof.
  intros s1 s2 ra x Hx. unfold Similarity.outer_step. rewrite upto_strlen.
  set (b := list_ascii_of_string s2).
  set (i := Z.of_nat (S (List.length ra))).
  assert (Hi : 0 < i) by (unfold i; lia).
  assert (Hx' : Similarity.charAt s1 (i - 1) = Some x).
  { replace (i - 1) with (Z.of_nat (List.length ra)) by (unfold i; lia).
    exact Hx. }
  cbn [fold_left].
  assert (H0 : Similarity.inner_step s1 s2 i (Some (Spec.row ra b, i)) 0
               = Some (Spec.row ra b, i)).
  { unfold Similarity.inner_step.
    destruct (i =? 0) eqn:E; [apply Z.eqb_eq in E; lia | reflexivity]. }
  rewrite H0. unfold Spec.row at 1. cbn [map].
  destruct (inner_row s1 s2 i x Hi Hx' b [] (Spec.lev ra []) i
              (map (Spec.lev ra) (Spec.rprefs b [])))
    as [costs' [lv [Hfold Hset]]].
  - reflexivity.
  - rewrite length_map, rprefs_length. reflexivity.
  - cbn [List.length app] in Hfold, Hset. rewrite Hfold.
    destruct (0 <? i) eqn:E; [|apply Z.ltb_ge in E; lia].
    unfold JS.set, JS.strlen. rewrite Nat2Z.id, string_length_list.
    fold b. cbn [Nat.add] in Hset. rewrite Hset.
    assert (Hleft : i = Spec.lev (x :: ra) []).
    { rewrite lev_nil_r. unfold JS.len, i. reflexivity. }
    rewrite Hleft at 1 2. rewrite rowStep_lev. reflexivity.
Qed.

(** The outer loop over the characters that are left of the first word. *)
Lemma outer_rows :
  forall s1 s2 rest ra,
    skipn (List.length ra) (list_ascii_of_string s1) = rest ->
    fold_left (Similarity.outer_step s1 s2)
              (map Z.of_nat (seq (S (List.length ra)) (List.length rest)))
              (Some (Spec.row ra (list_ascii_of_string s2)))
    = Some (Spec.row (rev rest ++ ra) (list_ascii_of_string s2)).
Proof.
  intros s1 s2 rest. induction rest as [|x rest IH]; intros ra Hskip.
  - reflexivity.
  - destruct (skipn_cons_nth _ _ _ _ _ Hskip) as [Hx Hskip'].
    cbn [List.length seq map fold_left].
    rewrite (outer_step_row s1 s2 ra x)
      by (rewrite charAt_nat; exact Hx).
    pose proof (IH (x :: ra) Hskip') as H. cbn [List.length] in H.
    rewrite H. cbn [rev]. rewrite <- app_assoc. reflexivity.
Qed.

(** The loops of [editDistance] compute the distance of the two
    lower-cased words. *)
Lemma editDistance_lev :
  forall s1 s2,
    Similarity.editDistance s1 s2
    = Some (Spec.lev (Spec.lowerRev s1) (Spec.lowerRev s2)).
Proof.
  intros s1 s2. unfold Similarity.editDistance, Spec.lowerRev.
  set (l1 := JS.toLowerCase s1). set (l2 := JS.toLowerCase s2).
  rewrite upto_strlen. cbn [fold_left].
  rewrite outer_step_row0.
  pose proof (outer_rows l1 l2 (list_ascii_of_string l1) [] eq_refl) as H.
  cbn [List.length] in H. rewrite H.
  rewrite app_nil_r. unfold Spec.row, JS.strlen.
  rewrite get_nat, string_length_list.
  rewrite nth_error_map, rprefs_last, app_nil_r. reflexivity.
Qed.

Lemma lowerRev_len :
  forall s, JS.len (Spec.lowerRev s) = JS.strlen (JS.toLowerCase s).
Proof.
  intros s. unfold Spec.lowerRev, JS.len, JS.strlen.
  rewrite length_rev, <- string_length_list. reflexivity.
Qed.

Lemma lev_diff :
  forall a b, Z.abs (JS.len a - JS.len b) <= Spec.lev a b.
Proof.
  induction a as [|x a IHa]; intros b.
  - cbn [Spec.lev]. pose proof (len_nonneg _ b). cbn. lia.
  - induction b as [|y b IHb].
    + rewrite lev_nil_r. pose proof (len_nonneg _ (x :: a)). cbn. lia.
    + rewrite lev_cons_cons.
      pose proof (IHa b). pose proof (IHa (y :: b)).
      rewrite !len_cons in *.
      destruct (Ascii.eqb x y); lia.
Qed.

Lemma lev_zero : forall a b, Spec.lev a b = 0 <-> a = b.
Proof.
  intros a b. split; [|intros ->; apply lev_refl].
  revert b. induction a as [|x a IHa]; intros b H.
  - cbn [Spec.lev] in H. destruct b; [reflexivity|].
    rewrite len_cons in H. pose proof (len_nonneg _ b). lia.
  - destruct b as [|y b].
    + rewrite lev_nil_r, len_cons in H. pose proof (len_nonneg _ a). lia.
    + rewrite lev_cons_cons in H.
      destruct (Ascii.eqb x y) eqn:E.
      * apply Ascii.eqb_eq in E. subst y. f_equal. apply IHa. exact H.
      * pose proof (lev_bounds a b). pose proof (lev_bounds (x :: a) b).
        pose proof (lev_bounds a (y :: b)). lia.
Qed.

Lemma lowerRev_inj :
  forall s1 s2,
    Spec.lowerRev s1 = Spec.lowerRev s2 <->
    JS.toLowerCase s1 = JS.toLowerCase s2.
Proof.
  intros s1 s2. unfold Spec.lowerRev. split.
  - intros H. apply (f_equal (@rev ascii)) in H.
    rewrite !rev_involutive in H.
    apply (f_equal string_of_list_ascii) in H.
    rewrite !string_of_list_ascii_of_string in H. exact H.
  - intros ->. reflexivity.
Qed.

(** [calculateSimilarity] in closed form. *)
Lemma calculateSimilarity_lev :
  forall s1 s2,
    Similarity.calculateSimilarity s1 s2 =
      let L := Z.max (JS.strlen s1) (JS.strlen s2) in
      if L =? 0 then Some 1
      else Some (Similarity.round_percent
                   (L - Spec.lev (Spec.lowerRev s1) (Spec.lowerRev s2)) L).
Proof.
  intros s1 s2. unfold Similarity.calculateSimilarity.
  destruct (JS.strlen s2 <? JS.strlen s1) eqn:E.
  - apply Z.ltb_lt in E. rewrite Z.max_l by lia.
    rewrite editDistance_lev. reflexivity.
  - apply Z.ltb_ge in E. rewrite Z.max_r by lia.
    rewrite editDistance_lev, (lev_sym (Spec.lowerRev s2)). reflexivity.
Qed.

Lemma round_percent_all :
  forall den, 0 < den -> Similarity.round_percent den den = 100.
Proof.
  intros den Hd. unfold Similarity.round_percent.
  symmetry. apply (Z.div_unique_pos _ _ 100 den); lia.
Qed.

Lemma round_percent_none :
  forall den, 0 < den -> Similarity.round_percent 0 den = 0.
Proof.
  intros den Hd. unfold Similarity.round_percent.
  apply Z.div_small. lia.
Qed.

(** X20. [editDistance] never gives NaN: its loops over the single array
    of costs compute the edit distance of the two lower-cased words, as
    the usual recurrence on prefixes defines it (a substitution, an
    insertion and a deletion cost one each). *)
Theorem editDistance_is_edit_distance :
  forall (s1 s2 : string),
    Similarity.editDistance s1 s2
    = Some (Spec.wagnerFischer (Spec.lowerRev s1) (Spec.lowerRev s2)).
Proof.
  intros s1 s2. rewrite editDistance_lev, lev_wagnerFischer. reflexivity.
Qed.

(** X21. The number that [editDistance] returns is at least the
    difference of the lengths of the two lower-cased strings and at most
    the greater of these lengths, and it is 0 exactly when the two
    strings are equal once lower-cased. *)
Theorem edit_distance_bounds :
  forall (s1 s2 : string),
    exists d,
      Similarity.editDistance s1 s2 = Some d /\
      Z.abs (JS.strlen (JS.toLowerCase s1) - JS.strlen (JS.toLowerCase s2))
        <= d
        <= Z.max (JS.strlen (JS.toLowerCase s1))
                 (JS.strlen (JS.toLowerCase s2)) /\
      (d = 0 <-> JS.toLowerCase s1 = JS.toLowerCase s2).
Proof.
  intros s1 s2. rewrite editDistance_lev. eexists. split; [reflexivity|].
  pose proof (lev_bounds (Spec.lowerRev s1) (Spec.lowerRev s2)) as Hb.
  pose proof (lev_diff (Spec.lowerRev s1) (Spec.lowerRev s2)) as Hd.
  rewrite !lowerRev_len in Hb, Hd. split; [lia|].
  rewrite lev_zero. apply lowerRev_inj.
Qed.

(** X22. The score does not depend on the order of the two strings. *)
Theorem similarity_symmetric :
  forall (s1 s2 : string),
    Similarity.calculateSimilarity s1 s2 = Similarity.calculateSimilarity s2 s1.
Proof.
  intros s1 s2. rewrite !calculateSimilarity_lev. cbv zeta.
  rewrite (Z.max_comm (JS.strlen s2)), (lev_sym (Spec.lowerRev s2)).
  reflexivity.
Qed.

Lemma strlen_pos : forall s, s <> EmptyString -> 0 < JS.strlen s.
Proof.
  intros [|c s] H; [contradiction|]. unfold JS.strlen. cbn [String.length]. lia.
Qed.

(** X23. Two strings that are equal once lower-cased score 100, unless
    they are empty; and a non-empty string whose length is not changed by
    lower-casing scores 0 against the empty string. *)
Theorem similarity_extremes :
  forall (s1 s2 : string),
    s1 <> EmptyString ->
    (JS.toLowerCase s1 = JS.toLowerCase s2 ->
     Similarity.calculateSimilarity s1 s2 = Some 100) /\
    (JS.strlen (JS.toLowerCase s1) = JS.strlen s1 ->
     Similarity.calculateSimilarity s1 EmptyString = Some 0).
Proof.
  intros s1 s2 Hne. pose proof (strlen_pos s1 Hne) as Hpos. split.
  - intros Hsame. rewrite calculateSimilarity_lev. cbv zeta.
    assert (H2 : 0 <= JS.strlen s2) by (unfold JS.strlen; lia).
    set (L := Z.max (JS.strlen s1) (JS.strlen s2)).
    assert (HL : 0 < L) by (unfold L; lia).
    rewrite (proj2 (lowerRev_inj s1 s2) Hsame), lev_refl.
    destruct (L =? 0) eqn:E; [apply Z.eqb_eq in E; lia|].
    rewrite Z.sub_0_r, round_percent_all by lia. reflexivity.
  - intros Hlen. rewrite calculateSimilarity_lev. cbv zeta.
    change (JS.strlen EmptyString) with 0. rewrite Z.max_l by lia.
    change (Spec.lowerRev EmptyString) with (@nil ascii).
    rewrite lev_nil_r, lowerRev_len, Hlen.
    destruct (JS.strlen s1 =? 0) eqn:E; [apply Z.eqb_eq in E; lia|].
    rewrite Z.sub_diag, round_percent_none by lia. reflexivity.
Qed.

Lemma similarity_extremes_witness :
  Similarity.calculateSimilarity "Knowledge" "kNOWLEDGE" = Some 100 /\
  Similarity.calculateSimilarity "Knowledge" "" = Some 0.
Proof.
  destruct (similarity_extremes "Knowledge" "kNOWLEDGE" ltac:(discriminate))
    as [H100 H0].
  split; [apply H100; reflexivity | apply H0; reflexivity].
Defined.

Lemma lowerChar_not_upper : forall c, JS.isUpper (JS.lowerChar c) = false.
Proof. intros [[] [] [] [] [] [] [] []]; reflexivity. Qed.

Lemma removePunctuation_clean :
  forall s c,
    In c (list_ascii_of_string (Similarity.removePunctuation s)) ->
    Similarity.isPunctuation c = false /\ In c (list_ascii_of_string s).
Proof.
  induction s as [|d s IH]; intros c H; [contradiction|].
  cbn [Similarity.removePunctuation] in H.
  destruct (Similarity.isPunctuation d) eqn:E.
  - destruct (IH c H) as [H1 H2]. split; [exact H1 | right; exact H2].
  - destruct H as [<- | H].
    + split; [exact E | left; reflexivity].
    + destruct (IH c H) as [H1 H2]. split; [exact H1 | right; exact H2].
Qed.

Lemma toLowerCase_chars :
  forall s c,
    In c (list_ascii_of_string (JS.toLowerCase s)) -> JS.isUpper c = false.
Proof.
  induction s as [|d s IH]; intros c H; [contradiction|].
  destruct H as [<- | H]; [apply lowerChar_not_upper | apply IH; exact H].
Qed.

(** X24. What is compared after a pronunciation attempt holds no capital
    letter and none of the punctuation marks of the pattern.  When what
    was heard and the word of the card become the same non-empty text in
    this way, the score is 100 and the message is the one for a perfect
    pronunciation. *)
Theorem pronunciation_score :
  forall (transcript word : string),
    (forall c, In c (list_ascii_of_string (Similarity.normalize word)) ->
               Similarity.isPunctuation c = false /\ JS.isUpper c = false) /\
    (Similarity.normalize transcript = Similarity.normalize word ->
     Similarity.normalize word <> EmptyString ->
     Similarity.pronunciationScore transcript word = Some 100 /\
     Similarity.getScoreMessage 100 = Similarity.Excellent).
Proof.
  intros transcript word. split.
  - intros c H. unfold Similarity.normalize in H.
    destruct (removePunctuation_clean _ _ H) as [H1 H2].
    split; [exact H1 | exact (toLowerCase_chars _ _ H2)].
  - intros Hsame Hne. split; [|reflexivity].
    unfold Similarity.pronunciationScore. rewrite Hsame.
    set (w := Similarity.normalize word) in *.
    rewrite calculateSimilarity_lev. cbv zeta.
    rewrite Z.max_id, lev_refl.
    pose proof (strlen_pos w Hne) as Hpos.
    destruct (JS.strlen w =? 0) eqn:E; [apply Z.eqb_eq in E; lia|].
    rewrite Z.sub_0_r, round_percent_all by lia. reflexivity.
Qed.

Lemma pronunciation_score_witness :
  Similarity.pronunciationScore " Well-being! " "wellbeing" = Some 100.
Proof.
  apply (proj2 (pronunciation_score " Well-being! " "wellbeing"));
    [reflexivity | discriminate].
Defined.

(* ================================================================= *)
(** * Clickable text *)

Lemma split_concat :
  forall text, List.concat (ClickableText.split text) = text.
Proof.
  induction text as [|c t IH]; [reflexivity|].
  cbn [ClickableText.split].
  destruct (ClickableText.isTokenChar c).
  - destruct (ClickableText.split t) as [|[|d0 d] rest].
    + cbn in IH. subst t. reflexivity.
    + destruct rest as [|w rest]; cbn in *; rewrite IH; reflexivity.
    + cbn in *. rewrite IH. reflexivity.
  - destruct (ClickableText.split t) as [|d rest].
    + cbn in IH. subst t. reflexivity.
    + cbn in *. rewrite IH. reflexivity.
Qed.

Lemma alternating_word_turn :
  forall b b' parts,
    ClickableText.alternating true b parts
    = ClickableText.alternating true b' parts.
Proof. intros b b' [|p rest]; reflexivity. Qed.

Lemma split_alternating :
  forall text,
    ClickableText.alternating false false (ClickableText.split text) = true.
Proof.
  induction text as [|c t IH]; [reflexivity|].
  cbn [ClickableText.split].
  destruct (ClickableText.isTokenChar c) eqn:Ec.
  - destruct (ClickableText.split t) as [|[|d0 d] rest]; [discriminate| |].
    + destruct rest as [|w rest].
      * cbn. rewrite Ec. reflexivity.
      * cbn [ClickableText.alternating ClickableText.isNil forallb negb
             andb orb] in IH |- *.
        rewrite Ec. cbn [andb].
        apply andb_true_iff in IH. destruct IH as [IH1 IH2].
        apply andb_true_iff in IH1. destruct IH1 as [_ IH1].
        rewrite IH1, IH2. reflexivity.
    + cbn [ClickableText.alternating ClickableText.isNil forallb negb
           andb orb] in IH |- *.
      rewrite Ec. cbn [andb].
      apply andb_true_iff in IH. destruct IH as [IH1 IH2].
      rewrite andb_true_r in IH1. rewrite IH1, orb_true_r.
      rewrite (alternating_word_turn true false). exact IH2.
  - destruct (ClickableText.split t) as [|d rest]; [discriminate|].
    cbn [ClickableText.alternating ClickableText.isNil forallb negb
         andb orb] in IH |- *.
    rewrite Ec. cbn [negb andb]. exact IH.
Qed.

Lemma alternating_index :
  forall parts wordTurn inner,
    ClickableText.alternating wordTurn inner parts = true ->
    Nat.even (List.length parts) = wordTurn /\
    forall i p,
      nth_error parts i = Some p ->
      if xorb wordTurn (Nat.odd i) then
        p <> [] /\ forallb ClickableText.isTokenChar p = true
      else
        forallb (fun c => negb (ClickableText.isTokenChar c)) p = true /\
        ((inner = true \/ 0 < i)%nat -> (S i < List.length parts)%nat ->
         p <> []).
Proof.
  induction parts as [|q rest IH]; intros wordTurn inner H.
  - cbn in H. subst wordTurn. split; [reflexivity|].
    intros [|i] p Hp; discriminate.
  - cbn [ClickableText.alternating] in H. destruct wordTurn.
    + apply andb_true_iff in H. destruct H as [H1 H3].
      apply andb_true_iff in H1. destruct H1 as [H1 H2].
      destruct (IH false true H3) as [Hev Hidx].
      split.
      * cbn [List.length]. rewrite Nat.even_succ, <- Nat.negb_even, Hev.
        reflexivity.
      * intros [|i] p Hp.
        -- cbn in Hp. injection Hp as <-. cbn. split; [|exact H2].
           destruct q; discriminate.
        -- cbn [nth_error] in Hp. specialize (Hidx i p Hp).
           rewrite Nat.odd_succ, <- Nat.negb_odd.
           destruct (Nat.odd i); cbn [negb xorb] in *; [exact Hidx|].
           destruct Hidx as [Ha Hb]. split; [exact Ha|].
           intros _ Hlt. apply Hb; [left; reflexivity|].
           cbn [List.length] in Hlt. lia.
    + apply andb_true_iff in H. destruct H as [H1 H3].
      apply andb_true_iff in H1. destruct H1 as [H1 H2].
      destruct (IH true inner H3) as [Hev Hidx].
      split.
      * cbn [List.length]. rewrite Nat.even_succ, <- Nat.negb_even, Hev.
        reflexivity.
      * intros [|i] p Hp.
        -- cbn in Hp. injection Hp as <-. cbn. split; [exact H1|].
           intros [Hinner | Hpos] Hlt; [|lia].
           subst inner. cbn [negb orb] in H2.
           destruct rest; [cbn in Hlt; lia|]. cbn in H2.
           destruct q; discriminate.
        -- cbn [nth_error] in Hp. specialize (Hidx i p Hp).
           rewrite Nat.odd_succ, <- Nat.negb_odd.
           destruct (Nat.odd i) eqn:Ho; cbn [negb xorb] in *;
             [|exact Hidx].
           destruct Hidx as [Ha Hb]. split; [exact Ha|].
           intros _ Hlt. apply Hb.
           ++ right. destruct i; [discriminate | lia].
           ++ cbn [List.length] in Hlt. lia.
Qed.

Lemma render_some :
  forall text onWordClick,
    text <> EmptyString ->
    ClickableText.render text onWordClick =
      Some (map (fun part => (string_of_list_ascii part,
                              (ClickableText.isWord part && onWordClick)%bool))
                (ClickableText.split (list_ascii_of_string text))).
Proof. intros [|c t] b H; [contradiction | reflexivity]. Qed.

(** X25. Nothing is rendered for the empty text.  For any other text the
    pieces rendered, put side by side in their order, give back the text,
    character for character: splitting into words and text between words
    loses nothing and adds nothing. *)
Theorem clickable_text_round_trip :
  forall (text : string) (onWordClick : bool),
    ClickableText.render EmptyString onWordClick = None /\
    (text <> EmptyString ->
     exists pieces,
       ClickableText.render text onWordClick = Some pieces /\
       List.concat (map (fun piece => list_ascii_of_string (fst piece)) pieces)
       = list_ascii_of_string text).
Proof.
  intros text onWordClick. split; [reflexivity|].
  intros Hne. eexists. split; [apply render_some; exact Hne|].
  rewrite map_map. cbn [fst].
  rewrite (map_ext _ (fun part => part))
    by (intros part; apply list_ascii_of_string_of_list_ascii).
  rewrite map_id. apply split_concat.
Qed.

Lemma clickable_text_round_trip_witness :
  exists pieces,
    ClickableText.render "It's a well-known fact." true = Some pieces /\
    List.concat (map (fun piece => list_ascii_of_string (fst piece)) pieces)
    = list_ascii_of_string "It's a well-known fact.".
Proof.
  apply (proj2 (clickable_text_round_trip "It's a well-known fact." true)).
  discriminate.
Defined.

Lemma isWord_token_run :
  forall p,
    p <> [] -> forallb ClickableText.isTokenChar p = true ->
    ClickableText.isWord p = existsb ClickableText.isLetter p.
Proof.
  intros [|c p] Hne Hall; [contradiction|].
  unfold ClickableText.isWord. rewrite Hall. reflexivity.
Qed.

Lemma isWord_between :
  forall p,
    forallb (fun c => negb (ClickableText.isTokenChar c)) p = true ->
    ClickableText.isWord p = false.
Proof.
  intros [|c p] H; [reflexivity|].
  cbn [forallb] in H. apply andb_true_iff in H. destruct H as [Hc _].
  apply negb_true_iff in Hc.
  unfold ClickableText.isWord. cbn [forallb]. rewrite Hc.
  cbn. reflexivity.
Qed.

(** X26. The pieces rendered for a text are odd in number and take turns,
    text between words first and last.  A piece at an odd place is a word:
    a non-empty run of letters, digits, apostrophes and hyphens; it can be
    clicked exactly when a click handler was given and it holds a letter.
    A piece at an even place holds none of these characters, can never be
    clicked, and is empty only at the two ends. *)
Theorem clickable_words :
  forall (text : string) (onWordClick : bool)
         (pieces : list (string * bool)),
    ClickableText.render text onWordClick = Some pieces ->
    Nat.odd (List.length pieces) = true /\
    forall i piece clickable,
      nth_error pieces i = Some (piece, clickable) ->
      let chars := list_ascii_of_string piece in
      if Nat.odd i then
        chars <> [] /\
        forallb ClickableText.isTokenChar chars = true /\
        clickable = (existsb ClickableText.isLetter chars && onWordClick)%bool
      else
        forallb (fun c => negb (ClickableText.isTokenChar c)) chars = true /\
        clickable = false /\
        ((0 < i)%nat -> (S i < List.length pieces)%nat -> chars <> []).
Proof.
  intros text onWordClick pieces Hr.
  assert (Htext : text <> EmptyString) by (intros ->; discriminate).
  rewrite (render_some _ _ Htext) in Hr. injection Hr as <-.
  pose proof (alternating_index _ false false
                (split_alternating (list_ascii_of_string text)))
    as [Hev Hidx].
  set (parts := ClickableText.split (list_ascii_of_string text)) in *.
  rewrite length_map. split.
  - rewrite <- Nat.negb_even, Hev. reflexivity.
  - intros i piece clickable Hn chars.
    rewrite nth_error_map in Hn.
    destruct (nth_error parts i) as [p|] eqn:Hp; [|discriminate].
    cbn in Hn. injection Hn as <- <-.
    unfold chars. rewrite list_ascii_of_string_of_list_ascii.
    specialize (Hidx i p Hp). cbn [xorb] in Hidx.
    destruct (Nat.odd i).
    + destruct Hidx as [Hne Hall]. split; [exact Hne|]. split; [exact Hall|].
      rewrite (isWord_token_run p Hne Hall). reflexivity.
    + destruct Hidx as [Hall Hinner]. split; [exact Hall|]. split.
      * rewrite (isWord_between p Hall). reflexivity.
      * intros Hpos Hlt. apply Hinner; [right; exact Hpos | exact Hlt].
Qed.

Lemma clickable_words_witness :
  Nat.odd (List.length
             [(""%string, false); ("R2-D2"%string, true);
              (" + "%string, false); ("42"%string, false);
              ("!"%string, false)]) = true.
Proof.
  apply (proj1 (clickable_words "R2-D2 + 42!" true
                  [(""%string, false); ("R2-D2"%string, true);
                   (" + "%string, false); ("42"%string, false);
                   ("!"%string, false)] eq_refl)).
Defined.

(* ================================================================= *)
(** * The flashcard component without the quiz *)

(** X27. In the component without the quiz the keys 1 and 2 rate the
    current card, 1 as forgotten and 2 as remembered, and then act as
    Next; but only in a review and only once the card is flipped:
    otherwise they change nothing and call nothing.  In a review the keys
    for Previous do nothing either. *)
Theorem rating_keys :
  forall (onRate reviewMode : bool) (s : FlashcardStudy.Deck),
    (reviewMode = false \/ FlashcardStudy.isFlipped s = false ->
     FlashcardStudy.handleKeyDown onRate reviewMode FlashcardStudy.Digit1 s
       = (s, []) /\
     FlashcardStudy.handleKeyDown onRate reviewMode FlashcardStudy.Digit2 s
       = (s, [])) /\
    FlashcardStudy.handleKeyDown onRate true FlashcardStudy.ArrowLeft s
      = (s, []) /\
    FlashcardStudy.handleKeyDown onRate true FlashcardStudy.KeyA s
      = (s, []) /\
    (forall card,
       FlashcardStudy.isFlipped s = true ->
       FlashcardStudy.currentCard s = Some card ->
       FlashcardStudy.handleKeyDown true true FlashcardStudy.Digit1 s
         = (fst (FlashcardStudy.handleNext true s),
            Session.Emit (OnRate card false)
              :: map Session.Emit (snd (FlashcardStudy.handleNext true s))) /\
       FlashcardStudy.handleKeyDown true true FlashcardStudy.Digit2 s
         = (fst (FlashcardStudy.handleNext true s),
            Session.Emit (OnRate card true)
              :: map Session.Emit (snd (FlashcardStudy.handleNext true s)))).
Proof.
  intros onRate reviewMode s. split; [|split; [|split]].
  - intros [-> | Hf]; unfold FlashcardStudy.handleKeyDown.
    + split; reflexivity.
    + rewrite Hf, andb_false_r. split; reflexivity.
  - reflexivity.
  - reflexivity.
  - intros card Hf Hc.
    unfold FlashcardStudy.handleKeyDown, FlashcardStudy.handleRating.
    rewrite Hf, Hc. cbn [andb].
    destruct (FlashcardStudy.handleNext true s) as [s' effs].
    split; reflexivity.
Qed.

Lemma rating_keys_witness :
  FlashcardStudy.handleKeyDown true true FlashcardStudy.Digit2
    {| FlashcardStudy.currentIndex := 0; FlashcardStudy.isFlipped := true;
       FlashcardStudy.studyQueue := [Sample.big] |}
  = ({| FlashcardStudy.currentIndex := 0; FlashcardStudy.isFlipped := true;
        FlashcardStudy.studyQueue := [Sample.big] |},
     [Session.Emit (OnRate Sample.big true); Session.Emit OnExit]).
Proof.
  apply (proj2 (proj2 (proj2 (proj2 (rating_keys true true
           {| FlashcardStudy.currentIndex := 0;
              FlashcardStudy.isFlipped := true;
              FlashcardStudy.studyQueue := [Sample.big] |})))
           Sample.big eq_refl eq_refl)).
Defined.

(* ================================================================= *)
(** * Quiz mode and the timers of the study session *)

Section QuizMode.

Context {Rand : Type} {RS : RandomSource Rand}.


Lemma generateQuiz_returns :
  forall card allCards r,
    Quiz.askable allCards card ->
    exists q,
      fst (Quiz.generateQuiz card allCards r) = Returns q /\
      isSubmitted q = false /\
      type q = fst (Quiz.chooseType card r) /\
      (correctAnswer q = word card \/ question q = word card).
Proof.
  intros card allCards r [Hcard [Hpool Hword]].
  pose proof (chooseType_in card r) as Hin.
  unfold Quiz.generateQuiz.
  destruct (Quiz.chooseType card r) as [t r1]. cbn [fst] in *.
  assert (Hdec : t = FILL_IN_BLANK \/ t <> FILL_IN_BLANK)
    by (destruct t; [right; discriminate | right; discriminate
                     | left; reflexivity]).
  destruct Hdec as [-> | Ht].
  - assert (Hex : 0 < JS.len (examples card)).
    { unfold Quiz.quizTypes in Hin.
      destruct (0 <? JS.len (examples card)) eqn:E;
        [apply Z.ltb_lt; exact E|].
      cbn in Hin. destruct Hin as [H | [H | []]]; discriminate. }
    cbn [Quiz.buildQuiz].
    pose proof (randomIndex_range (JS.len (examples card)) r1 Hex) as Hi.
    destruct (Quiz.randomIndex (JS.len (examples card)) r1) as [i r2].
    cbn [fst] in Hi.
    destruct (get_in_range _ _ _ Hi) as [ex [Hget _]]. rewrite Hget.
    unfold RegExp.blankOut.
    destruct (RegExp.parseWord (list_ascii_of_string (word card)))
      as [atoms|]; [|contradiction].
    eexists. split; [reflexivity|]. repeat split. left. reflexivity.
  - destruct (buildQuiz_select t card allCards r1 Ht Hcard
                (fun _ => Hpool))
      as [q [ds [opts [Hq [Hty [Hs [_ [Hqu [Hans _]]]]]]]]].
    exists q. split; [exact Hq|]. split; [exact Hs|]. split; [exact Hty|].
    destruct t; [right | left | contradiction].
    + cbn in Hqu. congruence.
    + cbn in Hans. congruence.
Qed.

(** The second effect of the component, case by case. *)
Lemma refreshQuiz_cases :
  forall allCards r m,
    (studyMode m = flashcard \/ Session.currentCard m = None ->
     Session.refreshQuiz allCards r m
       = (Returns (Session.set_quizState None m), r)) /\
    (forall card,
       studyMode m = quiz -> Session.currentCard m = Some card ->
       Quiz.askable allCards card ->
       exists q,
         fst (Session.refreshQuiz allCards r m)
           = Returns (Session.set_quizState (Some q) m) /\
         isSubmitted q = false /\
         (correctAnswer q = word card \/ question q = word card)).
Proof.
  intros allCards r m. unfold Session.refreshQuiz. split.
  - intros [Hm | Hc].
    + rewrite Hm. reflexivity.
    + rewrite Hc. destruct (studyMode m); reflexivity.
  - intros card Hm Hc Hask. rewrite Hm, Hc.
    destruct (generateQuiz_returns card allCards r Hask)
      as [q [Hq [Hs [_ Habout]]]].
    destruct (Quiz.generateQuiz card allCards r) as [o r1].
    cbn [fst] in Hq. subst o. exists q. repeat split; assumption.
Qed.


(** The handlers for Next and Previous with their timers: the position
    stays in the queue and nothing but the position and the flip changes. *)
Lemma move_frame :
  forall reviewMode s m,
    Session.inQueue s ->
    m = Session.advance reviewMode s \/ m = Session.retreat s ->
    Session.inQueue m /\ studyQueue m = studyQueue s /\
    studyMode m = studyMode s /\ quizState m = quizState s.
Proof.
  intros reviewMode s m Hin [-> | ->]; unfold Session.inQueue in *.
  - destruct (Session.nextBlocked s) eqn:Hb.
    + unfold Session.advance, Session.handleNext. rewrite Hb. cbn.
      repeat split; lia.
    + rewrite (advance_cases _ _ Hb).
      destruct (currentIndex s <? JS.len (studyQueue s) - 1) eqn:E.
      * apply Z.ltb_lt in E. cbn. repeat split; lia.
      * destruct reviewMode; cbn; repeat split; lia.
  - rewrite retreat_cases.
    destruct (0 <? currentIndex s) eqn:E.
    + apply Z.ltb_lt in E. cbn. repeat split; lia.
    + repeat split; lia.
Qed.

(** X13. Moving keeps the position inside the queue.  From a position that
    points at a card, [handleNext] and [handlePrev], each followed by its
    timer, lead to a position that points at a card, and leave the queue,
    the mode and the quiz state as they were; [handlePrev] on the first
    card changes nothing and starts no timer.  The effect that makes the
    question runs after the move only when the position has changed: in
    flashcard mode it leaves no question; in quiz mode, on a queue of
    cards that can be asked about, it puts up a new question, not
    submitted, about the card at the new position. *)
Theorem position_stays_in_queue :
  forall (reviewMode : bool) (allCards : list WordData) (r : Rand)
         (s : Study),
    Session.inQueue s ->
    (forall m,
       m = Session.advance reviewMode s \/ m = Session.retreat s ->
       Session.inQueue m /\
       studyQueue m = studyQueue s /\
       studyMode m = studyMode s /\
       quizState m = quizState s /\
       (currentIndex m = currentIndex s ->
        Session.afterMove allCards r s m = (Returns m, r)) /\
       (currentIndex m <> currentIndex s -> studyMode s = flashcard ->
        Session.afterMove allCards r s m
          = (Returns (Session.set_quizState None m), r)) /\
       (currentIndex m <> currentIndex s -> studyMode s = quiz ->
        (forall c, In c (studyQueue s) -> Quiz.askable allCards c) ->
        exists card q,
          Session.currentCard m = Some card /\
          fst (Session.afterMove allCards r s m)
            = Returns (Session.set_quizState (Some q) m) /\
          isSubmitted q = false /\
          (correctAnswer q = word card \/ question q = word card))) /\
    (currentIndex s = 0 -> Session.handlePrev s = (s, [])).
Proof.
  intros reviewMode allCards r s Hin. split.
  - intros m Hm.
    destruct (move_frame reviewMode s m Hin Hm) as [Hq [Hqueue [Hmode Hquiz]]].
    split; [exact Hq|]. split; [exact Hqueue|]. split; [exact Hmode|].
    split; [exact Hquiz|]. unfold Session.afterMove.
    split; [|split].
    + intros Hsame. rewrite Hsame, Z.eqb_refl. reflexivity.
    + intros Hdiff Hflash. apply Z.eqb_neq in Hdiff. rewrite Hdiff.
      apply (proj1 (refreshQuiz_cases allCards r m)).
      left. congruence.
    + intros Hdiff Hquizmode Hask. apply Z.eqb_neq in Hdiff. rewrite Hdiff.
      unfold Session.inQueue in Hq.
      destruct (get_in_range _ _ _ Hq) as [card [Hget Hcard]].
      rewrite Hqueue in Hcard.
      destruct (proj2 (refreshQuiz_cases allCards r m) card
                  ltac:(congruence) Hget (Hask card Hcard))
        as [q [Hret [Hs Habout]]].
      exists card, q. repeat split; assumption.
  - intros H0. unfold Session.handlePrev. rewrite H0. reflexivity.
Qed.

End QuizMode.


Lemma position_stays_in_queue_witness :
  Session.inQueue
    (Session.advance false
       {| currentIndex := 1; isFlipped := true;
          studyQueue := [Sample.big; Sample.cat]; studyMode := flashcard;
          quizState := None |}) /\
  Session.afterMove (RS := Sample.still) [] tt
    {| currentIndex := 1; isFlipped := true;
       studyQueue := [Sample.big; Sample.cat]; studyMode := flashcard;
       quizState := None |}
    (Session.advance false
       {| currentIndex := 1; isFlipped := true;
          studyQueue := [Sample.big; Sample.cat]; studyMode := flashcard;
          quizState := None |})
  = (Returns (Session.set_quizState None
                (Session.advance false
                   {| currentIndex := 1; isFlipped := true;
                      studyQueue := [Sample.big; Sample.cat];
                      studyMode := flashcard; quizState := None |})), tt).
Proof.
  destruct (proj1 (position_stays_in_queue (RS := Sample.still) false [] tt
                     {| currentIndex := 1; isFlipped := true;
                        studyQueue := [Sample.big; Sample.cat];
                        studyMode := flashcard; quizState := None |}
                     ltac:(unfold Session.inQueue; cbn; lia))
              _ (or_introl eq_refl))
    as [Hq [_ [_ [_ [_ [Hflash _]]]]]].
  split; [exact Hq|].
  apply Hflash; [discriminate | reflexivity].
Defined.

(** X29. The position is moved by a timer that is started when Next is
    pressed, not at once.  Two presses of Next before the first timer has
    fired both see the old position and start a timer each; from the last
    card but one the two timers then put the position past the end of the
    queue, where there is no current card. *)
Theorem double_next_overshoots :
  forall (reviewMode : bool) (s : Study),
    Session.nextBlocked s = false ->
    0 <= currentIndex s ->
    currentIndex s = JS.len (studyQueue s) - 2 ->
    let first := Session.handleNext reviewMode s in
    let second := Session.handleNext reviewMode (fst first) in
    snd first = [SetTimeout Increment] /\
    snd second = [SetTimeout Increment] /\
    currentIndex (Session.settle (fst second, snd first ++ snd second))
      = JS.len (studyQueue s) /\
    Session.currentCard
      (Session.settle (fst second, snd first ++ snd second)) = None.
Proof.
  intros reviewMode s Hb H0 Hi first second.
  assert (Hlt : (currentIndex s <? JS.len (studyQueue s) - 1) = true)
    by (apply Z.ltb_lt; lia).
  assert (E1 : first = (Session.set_isFlipped false s, [SetTimeout Increment])).
  { unfold first, Session.handleNext. rewrite Hb, Hlt. reflexivity. }
  assert (E2 : second
               = (Session.set_isFlipped false (Session.set_isFlipped false s),
                  [SetTimeout Increment])).
  { unfold second. rewrite E1. cbn [fst]. unfold Session.handleNext.
    assert (Hb' : Session.nextBlocked (Session.set_isFlipped false s) = false)
      by exact Hb.
    rewrite Hb'. cbn [currentIndex studyQueue Session.set_isFlipped].
    rewrite Hlt. reflexivity. }
  rewrite E1, E2. cbn [fst snd app].
  split; [reflexivity|]. split; [reflexivity|].
  unfold Session.settle. cbn. split; [lia|].
  unfold Session.currentCard. cbn. apply get_out_of_range. lia.
Qed.

Lemma double_next_overshoots_witness :
  Session.currentCard
    (Session.settle
       (fst (Session.handleNext true
               (fst (Session.handleNext true
                       {| currentIndex := 0; isFlipped := true;
                          studyQueue := [Sample.big; Sample.cat];
                          studyMode := flashcard; quizState := None |}))),
        snd (Session.handleNext true
               {| currentIndex := 0; isFlipped := true;
                  studyQueue := [Sample.big; Sample.cat];
                  studyMode := flashcard; quizState := None |})
        ++ snd (Session.handleNext true
                  (fst (Session.handleNext true
                          {| currentIndex := 0; isFlipped := true;
                             studyQueue := [Sample.big; Sample.cat];
                             studyMode := flashcard; quizState := None |})))))
  = None.
Proof.
  apply (proj2 (proj2 (proj2 (double_next_overshoots true
           {| currentIndex := 0; isFlipped := true;
              studyQueue := [Sample.big; Sample.cat];
              studyMode := flashcard; quizState := None |}
           eq_refl ltac:(cbn; lia) eq_refl)))).
Defined.
